(** * Shenano: the image-generation pipeline of [App.tsx] and
    [services/geminiService.ts]

    A shallow embedding of the orchestration code: JavaScript strings as
    sequences of UTF-16 code units, the values [JSON.parse] produces, the
    asynchronous service functions as programs over the requests they await,
    and the React component [App] as a record of its state hooks with one
    function per handler. *)

From Stdlib Require Import List NArith Bool Ascii String Lia Arith DecimalString.
Import ListNotations.

Set Implicit Arguments.
Set Warnings "-register-all".

(* ================================================================== *)
(** ** JavaScript strings *)

Module JSString.

(** A JavaScript string is a finite sequence of 16-bit code units. *)
Definition jsstring : Type := list N.

(** An ASCII literal of the source, as code units. *)
Definition js (s : string) : jsstring :=
  map N_of_ascii (list_ascii_of_string s).

(** The same, with every backquote of the literal standing for a double
    quotation mark (code unit 34). *)
Definition jsq (s : string) : jsstring :=
  map (fun c => if N.eqb c 96 then 34%N else c) (js s).

Definition LF : jsstring := [10%N].

(** ECMAScript [WhiteSpace] and [LineTerminator] code points, the ones
    [String.prototype.trim] removes. *)
Definition isWhiteSpace (c : N) : bool :=
  existsb (N.eqb c)
    [9; 10; 11; 12; 13; 32; 160; 5760; 8232; 8233; 8239; 8287; 12288; 65279]%N
  || (N.leb 8192 c && N.leb c 8202).

Fixpoint trimStart (s : jsstring) : jsstring :=
  match s with
  | [] => []
  | c :: r => if isWhiteSpace c then trimStart r else s
  end.

Definition trimEnd (s : jsstring) : jsstring := rev (trimStart (rev s)).

(** [s.trim()] *)
Definition trim (s : jsstring) : jsstring := trimEnd (trimStart s).

Fixpoint startsWith (s sub : jsstring) {struct sub} : bool :=
  match sub, s with
  | [], _ => true
  | _ :: _, [] => false
  | a :: sub', b :: s' => N.eqb a b && startsWith s' sub'
  end.

(** [s.includes(sub)] *)
Fixpoint includes (s sub : jsstring) : bool :=
  startsWith s sub ||
  match s with
  | [] => false
  | _ :: r => includes r sub
  end.

(** Boolean coercion of a string: only the empty string is falsy. *)
Definition truthy (s : jsstring) : bool :=
  match s with [] => false | _ :: _ => true end.

(** Boolean coercion of [string | null] and [string | undefined]. *)
Definition truthy_opt (s : option jsstring) : bool :=
  match s with None => false | Some s => truthy s end.

(** [a || b] on strings. *)
Definition or_else (a b : jsstring) : jsstring := if truthy a then a else b.

(** The decimal digits of an array index or length, as a template literal
    prints it. *)
Definition of_nat (n : nat) : jsstring :=
  js (NilZero.string_of_uint (Nat.to_uint n)).

Definition eqb (a b : jsstring) : bool :=
  if list_eq_dec N.eq_dec a b then true else false.

End JSString.
Import JSString.

(* ================================================================== *)
(** ** JSON values and [JSON.parse] *)

Module JSON.

(** The values [JSON.parse] can return, and [undefined] for the properties
    a value lacks.  A number keeps the digits it was written with; an
    object keeps its members in the order of the text. *)
Inductive JSValue : Type :=
  | JUndefined
  | JNull
  | JBool (b : bool)
  | JNumber (lexeme : jsstring)
  | JString (s : jsstring)
  | JArray (elements : list JSValue)
  | JObject (members : list (jsstring * JSValue)).

(** JSON white space: tab, line feed, carriage return, space. *)
Definition is_ws (c : N) : bool := existsb (N.eqb c) [9; 10; 13; 32]%N.

Fixpoint skip_ws (s : jsstring) : jsstring :=
  match s with
  | [] => []
  | c :: r => if is_ws c then skip_ws r else s
  end.

Definition is_digit (c : N) : bool := N.leb 48 c && N.leb c 57.

Fixpoint span_digits (s : jsstring) : jsstring * jsstring :=
  match s with
  | [] => ([], [])
  | c :: r =>
      if is_digit c
      then let '(d, r') := span_digits r in (c :: d, r')
      else ([], s)
  end.

(** One or more digits. *)
Definition digits1 (s : jsstring) : option (jsstring * jsstring) :=
  match span_digits s with
  | ([], _) => None
  | (d, r) => Some (d, r)
  end.

(** The integer part: [0], or a non-zero digit followed by digits. *)
Definition int_part (s : jsstring) : option (jsstring * jsstring) :=
  match s with
  | [] => None
  | c :: r =>
      if N.eqb c 48 then Some ([c], r)
      else if is_digit c then let '(d, r') := span_digits r in Some (c :: d, r')
      else None
  end.

(** The code unit [c], and what follows it. *)
Definition expect (c : N) (s : jsstring) : option jsstring :=
  match s with
  | x :: r => if N.eqb x c then Some r else None
  | [] => None
  end.

Definition frac_part (s : jsstring) : option (jsstring * jsstring) :=
  match expect 46 s with
  | Some r =>
      match digits1 r with
      | Some (d, r') => Some (46%N :: d, r')
      | None => None
      end
  | None => Some ([], s)
  end.

Definition exp_part (s : jsstring) : option (jsstring * jsstring) :=
  match s with
  | c :: r =>
      if N.eqb c 101 || N.eqb c 69 then
        let '(sign, r1) :=
          match r with
          | c' :: r' => if N.eqb c' 43 || N.eqb c' 45 then ([c'], r') else ([], r)
          | [] => ([], r)
          end in
        match digits1 r1 with
        | Some (d, r2) => Some (c :: sign ++ d, r2)
        | None => None
        end
      else Some ([], s)
  | [] => Some ([], s)
  end.

(** A JSON number: the text matched and what follows it. *)
Definition parse_number (s : jsstring) : option (jsstring * jsstring) :=
  let '(minus, s0) :=
    match expect 45 s with
    | Some r => ([45%N], r)
    | None => ([], s)
    end in
  match int_part s0 with
  | None => None
  | Some (i, s1) =>
      match frac_part s1 with
      | None => None
      | Some (f, s2) =>
          match exp_part s2 with
          | None => None
          | Some (e, s3) => Some (minus ++ i ++ f ++ e, s3)
          end
      end
  end.

Definition hex_digit (c : N) : option N :=
  if is_digit c then Some (c - 48)%N
  else if N.leb 97 c && N.leb c 102 then Some (c - 87)%N
  else if N.leb 65 c && N.leb c 70 then Some (c - 55)%N
  else None.

Definition hex4 (a b c d : N) : option N :=
  match hex_digit a, hex_digit b, hex_digit c, hex_digit d with
  | Some a, Some b, Some c, Some d => Some (((a * 16 + b) * 16 + c) * 16 + d)%N
  | _, _, _, _ => None
  end.

Definition escape (c : N) : option N :=
  if N.eqb c 34 then Some 34%N          (* quotation mark *)
  else if N.eqb c 92 then Some 92%N     (* reverse solidus *)
  else if N.eqb c 47 then Some 47%N     (* solidus *)
  else if N.eqb c 98 then Some 8%N      (* b: backspace *)
  else if N.eqb c 102 then Some 12%N    (* f: form feed *)
  else if N.eqb c 110 then Some 10%N    (* n: line feed *)
  else if N.eqb c 114 then Some 13%N    (* r: carriage return *)
  else if N.eqb c 116 then Some 9%N     (* t: tab *)
  else None.

(** The characters of a string after its opening quotation mark, up to
    the closing one; [acc] holds the code units read so far, reversed. *)
Fixpoint parse_string (s : jsstring) (acc : jsstring)
  : option (jsstring * jsstring) :=
  match s with
  | [] => None
  | c :: r =>
      if N.eqb c 34 then Some (rev acc, r)
      else if N.eqb c 92 then
        match r with
        | [] => None
        | e :: r1 =>
            if N.eqb e 117 then
              match r1 with
              | a :: b :: c' :: d :: r2 =>
                  match hex4 a b c' d with
                  | Some u => parse_string r2 (u :: acc)
                  | None => None
                  end
              | _ => None
              end
            else
              match escape e with
              | Some u => parse_string r1 (u :: acc)
              | None => None
              end
        end
      else if N.ltb c 32 then None
      else parse_string r (c :: acc)
  end.

Definition parse_literal (s : jsstring) : option (JSValue * jsstring) :=
  if startsWith s (js "null") then Some (JNull, skipn 4 s)
  else if startsWith s (js "true") then Some (JBool true, skipn 4 s)
  else if startsWith s (js "false") then Some (JBool false, skipn 5 s)
  else
    match parse_number s with
    | Some (n, r) => Some (JNumber n, r)
    | None => None
    end.

(** A recursive descent over the JSON grammar.  Every call consumes input
    before it recurses, so the depth of the recursion is bounded by the
    length of the text; [fuel] makes that bound structural. *)
Fixpoint parse_value (fuel : nat) (s : jsstring) {struct fuel}
  : option (JSValue * jsstring) :=
  match fuel with
  | O => None
  | S f =>
      match skip_ws s with
      | [] => None
      | c :: r =>
          if N.eqb c 123 then
            match expect 125 (skip_ws r) with
            | Some r' => Some (JObject [], r')
            | None => parse_members f r []
            end
          else if N.eqb c 91 then
            match expect 93 (skip_ws r) with
            | Some r' => Some (JArray [], r')
            | None => parse_elements f r []
            end
          else if N.eqb c 34 then
            match parse_string r [] with
            | Some (str, r') => Some (JString str, r')
            | None => None
            end
          else parse_literal (c :: r)
      end
  end
with parse_elements (fuel : nat) (s : jsstring) (acc : list JSValue)
       {struct fuel} : option (JSValue * jsstring) :=
  match fuel with
  | O => None
  | S f =>
      match parse_value f s with
      | None => None
      | Some (v, r) =>
          match skip_ws r with
          | [] => None
          | c :: r' =>
              if N.eqb c 44 then parse_elements f r' (v :: acc)
              else if N.eqb c 93 then Some (JArray (rev (v :: acc)), r')
              else None
          end
      end
  end
with parse_members (fuel : nat) (s : jsstring)
       (acc : list (jsstring * JSValue)) {struct fuel}
  : option (JSValue * jsstring) :=
  match fuel with
  | O => None
  | S f =>
      match expect 34 (skip_ws s) with
      | None => None
      | Some r =>
          match parse_string r [] with
          | None => None
          | Some (key, r1) =>
              match expect 58 (skip_ws r1) with
              | None => None
              | Some r2 =>
                  match parse_value f r2 with
                  | None => None
                  | Some (v, r3) =>
                      match skip_ws r3 with
                      | [] => None
                      | c :: r4 =>
                          if N.eqb c 44
                          then parse_members f r4 ((key, v) :: acc)
                          else if N.eqb c 125
                          then Some (JObject (rev ((key, v) :: acc)), r4)
                          else None
                      end
                  end
              end
          end
      end
  end.

(** [JSON.parse(text)]: [None] stands for the [SyntaxError] it throws. *)
Definition parse (text : jsstring) : option JSValue :=
  match parse_value (2 * List.length text + 2) text with
  | Some (v, r) =>
      match skip_ws r with
      | [] => Some v
      | _ :: _ => None
      end
  | None => None
  end.

(** A parse found with some fuel consumes input, and is found with any
    fuel above twice what it consumes. *)
Definition enough (f : nat) : Prop :=
  (forall s v r,
      parse_value f s = Some (v, r) ->
      List.length r < List.length s
      /\ forall g, 2 * (List.length s - List.length r) <= g ->
                   parse_value g s = Some (v, r))
  /\ (forall s acc v r,
         parse_elements f s acc = Some (v, r) ->
         List.length r < List.length s
         /\ forall g, 2 * (List.length s - List.length r) <= g ->
                      parse_elements g s acc = Some (v, r))
  /\ (forall s acc v r,
         parse_members f s acc = Some (v, r) ->
         List.length r < List.length s
         /\ forall g, 2 * (List.length s - List.length r) <= g ->
                      parse_members g s acc = Some (v, r)).

End JSON.
Import JSON.

(* ================================================================== *)
(** ** Data model ([types.ts] and the request and response shapes of the
    generative-AI client, as the services read and build them) *)

(** A browser [File]: the pipeline reads its [name] and [type] only. *)
Record File : Type := { name : jsstring; type : jsstring }.

(** [ImageFile]: the fields the pipeline reads. *)
Record ImageFile : Type := { file : File; base64 : jsstring }.

Record Blob : Type := { mimeType : jsstring; data : jsstring }.

(** One content part of a request or of a response: [{text}] or
    [{inlineData}]. *)
Record Part : Type := { text : option jsstring; inlineData : option Blob }.

Definition text_part (t : jsstring) : Part :=
  {| text := Some t; inlineData := None |}.

Definition inlineData_part (mime d : jsstring) : Part :=
  {| text := None; inlineData := Some {| mimeType := mime; data := d |} |}.

Inductive TargetModel : Type := IMAGE | VIDEO.

Definition TargetModel_eqb (a b : TargetModel) : bool :=
  match a, b with
  | IMAGE, IMAGE | VIDEO, VIDEO => true
  | _, _ => false
  end.

(** The three instruction templates of the service are fixed texts; a request
    names the one it carries. *)
Inductive SystemInstruction : Type :=
| SYSTEM_INSTRUCTION_QUOTE_ADDER
| SYSTEM_INSTRUCTION_IMAGE
| SYSTEM_INSTRUCTION_VIDEO.

Inductive Modality : Type := Modality_IMAGE.

Record GenerateContentConfig : Type := {
  systemInstruction : option SystemInstruction;
  responseMimeType : option jsstring;
  temperature : option N;
  responseModalities : list Modality
}.

Record GenerateContentParameters : Type := {
  model : jsstring;
  role : option jsstring;
  parts : list Part;
  config : GenerateContentConfig
}.

(** A response, as far as the services read it.  Every level of it may be
    missing: a response to a blocked prompt has no [candidates], a
    candidate may have no [content], a content no [parts], and
    [response.text] is [undefined] when the response holds no text. *)
Record Content : Type := { content_parts : option (list Part) }.

Record Candidate : Type := { content : option Content }.

Module Response.
Record t : Type := {
  text : option jsstring;
  candidates : option (list Candidate)
}.
End Response.

Definition GenerateContentResponse : Type := Response.t.

(** A response with one candidate, holding [parts], whose text is [t]. *)
Definition answer (t : jsstring) (parts : list Part) : GenerateContentResponse :=
  {| Response.text := Some t;
     Response.candidates :=
       Some [ {| content := Some {| content_parts := Some parts |} |} ] |}.

(** [response.text] where a string is expected, in a concatenation or as
    the argument of [JSON.parse]: [undefined] reads as the text
    [undefined]. *)
Definition response_text (response : GenerateContentResponse) : jsstring :=
  match Response.text response with
  | Some t => t
  | None => js "undefined"
  end.

(** The message of the [TypeError] a property read of [undefined] throws. *)
Definition undefined_read (property : jsstring) : jsstring :=
  js "Cannot read properties of undefined (reading '" ++ property ++ js "')".

Definition not_iterable : jsstring :=
  js "response.candidates[0].content.parts is not iterable".

(** [EngineeredPrompt] is whatever [JSON.parse] returned, cast. *)
Definition EngineeredPrompt : Type := JSValue.

(** The snapshot kept for a retry ([lastConfig]). *)
Module GenerationConfig.
Record t : Type := {
  prompt : jsstring;
  textPlates : list ImageFile;
  referenceImages : list ImageFile
  }.
End GenerationConfig.

Inductive AspectRatio : Type := SQUARE | PORTRAIT | LANDSCAPE.

Inductive AppState : Type := IDLE | LOADING | SUCCESS | ERROR.

(** A thrown value: an [Error] instance with its message, or anything else. *)
Inductive Thrown : Type :=
| JsError (message : jsstring)
| NotAnError.

(** [response.candidates[0].content.parts] as the head of a [for ... of]
    loop: the parts, or the [TypeError] of the first read that meets
    [undefined]. *)
Definition response_parts (response : GenerateContentResponse)
  : Thrown + list Part :=
  match Response.candidates response with
  | None => inl (JsError (undefined_read (js "0")))
  | Some [] => inl (JsError (undefined_read (js "content")))
  | Some (candidate :: _) =>
      match content candidate with
      | None => inl (JsError (undefined_read (js "parts")))
      | Some c =>
          match content_parts c with
          | None => inl (JsError not_iterable)
          | Some parts => inr parts
          end
      end
  end.

(* ================================================================== *)
(** ** Asynchronous programs *)

(** The service function in whose body a request is written. *)
Inductive Service : Type :=
| In_addQuotesToPrompt
| In_engineerPrompt
| In_getGroundingImage
| In_generateImage.

(** What the code awaits from outside: a [generateContent] request of a
    client built with [apiKey], the plate renderer of [components/utils]
    (not among the sources; it is given the quoted prompt and yields the
    plates), the [fetch] of a data URL and the reading of what it fetched
    as a blob. *)
Inductive Call : Type :=
| generateContent (caller : Service) (apiKey : jsstring)
  (params : GenerateContentParameters)
| extractTextAndGeneratePlates (quotedPrompt : jsstring)
| fetch (url : jsstring)
| read_blob (url : jsstring).

Definition Resp (c : Call) : Type :=
  match c with
  | generateContent _ _ _ => GenerateContentResponse
  | extractTextAndGeneratePlates _ => list ImageFile
  | fetch _ => unit
  | read_blob _ => unit
  end.

(** How an awaited promise settles: rejected with a thrown value, or
    resolved. *)
Definition Settled (c : Call) : Type := (Thrown + Resp c)%type.

(** A program returns, throws, or awaits a call and continues with the way
    it settled.  Writing to the console is not part of the model. *)
Inductive Prog (A : Type) : Type :=
| Ret (a : A)
| Throw (e : Thrown)
| Await (c : Call) (k : Settled c -> Prog A).

Arguments Ret {A} a.
Arguments Throw {A} e.
Arguments Await {A} c k.

Fixpoint bind {A B : Type} (p : Prog A) (f : A -> Prog B) : Prog B :=
  match p with
  | Ret a => f a
  | Throw e => Throw e
  | Await c k => Await c (fun r => bind (k r) f)
  end.

(** [try { p } catch (e) { h e }] *)
Fixpoint try_catch {A : Type} (p : Prog A) (h : Thrown -> Prog A) : Prog A :=
  match p with
  | Ret a => Ret a
  | Throw e => h e
  | Await c k => Await c (fun r => try_catch (k r) h)
  end.

(** [await c]: a rejection is thrown at the await. *)
Definition await (c : Call) : Prog (Resp c) :=
  Await c (fun r => match r with inl e => Throw e | inr x => Ret x end).

Declare Scope prog_scope.
Delimit Scope prog_scope with prog.
Notation "x <- p ;; q" := (bind p (fun x => q))
  (at level 100, p at next level, right associativity) : prog_scope.
Open Scope prog_scope.

(** The environment settles the [n]-th call of a run. *)
Definition Oracle : Type := nat -> forall c : Call, Settled c.

(** Running a program from its [n]-th call on: the calls made, in order,
    and the outcome. *)
Fixpoint run {A : Type} (p : Prog A) (env : Oracle) (n : nat)
  : list Call * (Thrown + A) :=
  match p with
  | Ret a => ([], inr a)
  | Throw e => ([], inl e)
  | Await c k =>
    let '(calls, r) := run (k (env n c)) env (S n) in (c :: calls, r)
  end.

Definition calls_of {A : Type} (p : Prog A) (env : Oracle) : list Call :=
  fst (run p env 0).

Definition outcome_of {A : Type} (p : Prog A) (env : Oracle) : Thrown + A :=
  snd (run p env 0).

(** The stages of the pipeline, and the stage a call belongs to: the one
    whose function issues it. *)
Inductive Stage : Type :=
| Quoting
| PlateRendering
| Engineering
| Grounding
| ImageGeneration.

Definition stage_of (c : Call) : Stage :=
  match c with
  | generateContent In_addQuotesToPrompt _ _ => Quoting
  | generateContent In_engineerPrompt _ _ => Engineering
  | generateContent In_getGroundingImage _ _ => Grounding
  | generateContent In_generateImage _ _ => ImageGeneration
  | extractTextAndGeneratePlates _ => PlateRendering
  | fetch _ => Grounding
  | read_blob _ => Grounding
  end.

Definition stages_of {A : Type} (p : Prog A) (env : Oracle) : list Stage :=
  map stage_of (calls_of p env).

(** [array.push(x)] *)
Definition push {A : Type} (array : list A) (x : A) : list A := array ++ [x].

(** [array.forEach((x, index) => ...)], the callback updating [s]. *)
Fixpoint forEach_from {A S : Type} (f : S -> A -> nat -> S) (array : list A)
  (index : nat) (s : S) : S :=
  match array with
  | [] => s
  | x :: rest => forEach_from f rest (Datatypes.S index) (f s x index)
  end.

Definition forEach {A S : Type} (f : S -> A -> nat -> S) (array : list A)
  (s : S) : S := forEach_from f array 0 s.

(* ================================================================== *)
(** ** [services/geminiService.ts] *)

(** The service file exists in two versions, which differ in the wording of
    the image instruction template and of the grounding prompt only. *)
Inductive ServiceVersion : Type := Mild | HyperCritical.

Module GeminiService.

Definition quote_request (userPrompt apiKey : jsstring) : Call :=
  generateContent In_addQuotesToPrompt apiKey
    {| model := js "gemini-2.5-flash";
       role := None;
       parts := [text_part (js "User Prompt: " ++ userPrompt)];
       config := {| systemInstruction := Some SYSTEM_INSTRUCTION_QUOTE_ADDER;
                    responseMimeType := Some (js "text/plain");
                    temperature := Some 0%N;
                    responseModalities := [] |} |}.

Definition addQuotesToPrompt (userPrompt apiKey : jsstring) : Prog jsstring :=
  if negb (truthy (trim userPrompt)) then Ret userPrompt
  else
    try_catch
      (response <- await (quote_request userPrompt apiKey) ;;
       match Response.text response with
       | None => Throw (JsError (undefined_read (js "trim")))
       | Some text =>
           let quotedPrompt := trim text in
           (* If the model returns an empty string, fall back to the
              original prompt. *)
           Ret (or_else quotedPrompt userPrompt)
       end)
      (fun error =>
         (* If this step fails, proceed with the original prompt. *)
         Ret userPrompt).

Definition closing_instruction : jsstring :=
  js "Now, generate the professional prompt JSON based on all inputs and the system instruction.".

(** The [parts] array of [engineerPrompt], built by two [forEach] loops
    that push a label and the image data for each image. *)
Definition engineerPrompt_parts (userPrompt : jsstring)
  (textPlates referenceImages : list ImageFile) (aspectRatio : jsstring)
  : list Part :=
  let parts :=
    [text_part (js "User's simple prompt: " ++ userPrompt ++ LF
                ++ js "Desired Aspect Ratio: " ++ aspectRatio)] in
  let parts :=
    forEach (fun parts plate index =>
      let parts := push parts
        (text_part (js "Text Plate " ++ of_nat (index + 1) ++ js " ("
                    ++ name (file plate) ++ js "):")) in
      push parts (inlineData_part (type (file plate)) (base64 plate)))
      textPlates parts in
  let parts :=
    forEach (fun parts image index =>
      let parts := push parts
        (text_part (js "User Reference Image " ++ of_nat (index + 1) ++ js " ("
                    ++ name (file image) ++ js "):")) in
      push parts (inlineData_part (type (file image)) (base64 image)))
      referenceImages parts in
  push parts (text_part closing_instruction).

(** The parts the two loops of [engineerPrompt] push for an image at
    index [i]. *)
Definition plate_label (i : nat) (plate : ImageFile) : Part :=
  text_part (js "Text Plate " ++ of_nat (i + 1) ++ js " ("
             ++ name (file plate) ++ js "):").

Definition reference_label (i : nat) (image : ImageFile) : Part :=
  text_part (js "User Reference Image " ++ of_nat (i + 1) ++ js " ("
             ++ name (file image) ++ js "):").

Definition image_data (image : ImageFile) : Part :=
  inlineData_part (type (file image)) (base64 image).

Definition invalid_response_prefix : jsstring :=
  js "The AI returned an invalid response. Please try again. Raw response: ".

Definition engineer_request (userPrompt : jsstring) (targetModel : TargetModel)
  (textPlates referenceImages : list ImageFile) (aspectRatio apiKey : jsstring)
  : Call :=
  let parts :=
    engineerPrompt_parts userPrompt textPlates referenceImages aspectRatio in
  let systemInstruction :=
    if TargetModel_eqb targetModel VIDEO
    then SYSTEM_INSTRUCTION_VIDEO
    else SYSTEM_INSTRUCTION_IMAGE in
  generateContent In_engineerPrompt apiKey
    {| model := js "gemini-2.5-pro";
       role := Some (js "user");
       parts := parts;
       config := {| systemInstruction := Some systemInstruction;
                    responseMimeType := Some (js "application/json");
                    temperature := None;
                    responseModalities := [] |} |}.

Definition engineerPrompt (userPrompt : jsstring) (targetModel : TargetModel)
  (textPlates referenceImages : list ImageFile) (aspectRatio apiKey : jsstring)
  : Prog EngineeredPrompt :=
  response <- await (engineer_request userPrompt targetModel textPlates
                       referenceImages aspectRatio apiKey) ;;
  let responseText := response_text response in
  match JSON.parse responseText with
  | Some parsedJson => Ret parsedJson
  | None => Throw (JsError (invalid_response_prefix ++ responseText))
  end.

Definition data_url (base64ImageBytes : jsstring) : jsstring :=
  js "data:image/png;base64," ++ base64ImageBytes.

Definition grounding_prompt (v : ServiceVersion) (query : jsstring) : jsstring :=
  match v with
  | Mild =>
      js "A high-quality, photorealistic, daytime, centered, clear photograph of "
      ++ query
      ++ js ". No people, no text, no watermarks, professional photography."
  | HyperCritical =>
      js "Create a high-resolution, photorealistic, studio-quality photograph of: "
      ++ query ++ js ". " ++ LF
      ++ js "The subject should be clearly visible, centered, and isolated on a neutral gray or white background. "
      ++ LF
      ++ js "Show the object from a standard, clear angle (e.g., a 3/4 view or side profile for a car). "
      ++ LF
      ++ js "Ensure professional, even lighting with no harsh shadows."
      ++ LF
      ++ js "ABSOLUTE NEGATIVES: No people, no other objects, no text, no watermarks, no blurry backgrounds, no artistic filters, no unusual angles."
  end.

Definition image_request (caller : Service) (apiKey : jsstring)
  (parts : list Part) : Call :=
  generateContent caller apiKey
    {| model := js "gemini-2.5-flash-image";
       role := None;
       parts := parts;
       config := {| systemInstruction := None;
                    responseMimeType := None;
                    temperature := None;
                    responseModalities := [Modality_IMAGE] |} |}.

(** The loop of [getGroundingImage] over the parts of the response. *)
Fixpoint grounding_scan (parts : list Part) : Prog ImageFile :=
  match parts with
  | [] => Throw (JsError (js "Failed to generate grounding image."))
  | part :: rest =>
      match inlineData part with
      | Some blob =>
          let base64ImageBytes := data blob in
          _ <- await (fetch (data_url base64ImageBytes)) ;;
          _ <- await (read_blob (data_url base64ImageBytes)) ;;
          Ret {| file := {| name := js "grounding_reference.png";
                            type := js "image/png" |};
                 base64 := base64ImageBytes |}
      | None => grounding_scan rest
      end
  end.

Definition getGroundingImage (v : ServiceVersion) (query apiKey : jsstring)
  : Prog ImageFile :=
  let prompt := grounding_prompt v query in
  response <- await (image_request In_getGroundingImage apiKey [text_part prompt]) ;;
  match response_parts response with
  | inl e => Throw e
  | inr parts => grounding_scan parts
  end.

Definition no_image_message : jsstring :=
  js "No image was generated by the model.".

(** The loop of [generateImage] over the parts of the response: the first
    part with [inlineData] ends it; falling out of it throws. *)
Fixpoint generateImage_scan (parts : list Part) : Prog jsstring :=
  match parts with
  | [] => Throw (JsError no_image_message)
  | part :: rest =>
      match inlineData part with
      | Some blob =>
          let base64ImageBytes := data blob in
          let imageUrl := data_url base64ImageBytes in
          Ret imageUrl
      | None => generateImage_scan rest
      end
  end.

Definition generateImage_parts (prompt : jsstring)
  (textPlates referenceImages : list ImageFile) : list Part :=
  let allImages := textPlates ++ referenceImages in
  let parts := [text_part prompt] in
  forEach (fun parts image _ =>
    push parts (inlineData_part (type (file image)) (base64 image)))
    allImages parts.

(** Returns the [objectUrl] of the result. *)
Definition generateImage (prompt : jsstring)
  (textPlates referenceImages : list ImageFile) (apiKey : jsstring)
  : Prog jsstring :=
  let parts := generateImage_parts prompt textPlates referenceImages in
  response <- await (image_request In_generateImage apiKey parts) ;;
  match response_parts response with
  | inl e => Throw e
  | inr parts => generateImage_scan parts
  end.

End GeminiService.

(* ================================================================== *)
(** ** Reading an [EngineeredPrompt] *)

Module Engineered.

(** [obj[key]] on the members of a parsed object: of two members with one
    key the later one is the property. *)
Fixpoint lookup (key : jsstring) (members : list (jsstring * JSValue))
  : JSValue :=
  match members with
  | [] => JUndefined
  | (k, v) :: rest =>
      match lookup key rest with
      | JUndefined => if JSString.eqb k key then v else JUndefined
      | later => later
      end
  end.

(** The message of the [TypeError] a property read of [null] throws. *)
Definition null_read_message (key : jsstring) : jsstring :=
  js "Cannot read properties of null (reading '" ++ key ++ js "')".

Definition undefined_read_message (key : jsstring) : jsstring :=
  js "Cannot read properties of undefined (reading '" ++ key ++ js "')".

(** [v.key] for a key that no prototype defines. *)
Definition Get (v : JSValue) (key : jsstring) : Thrown + JSValue :=
  match v with
  | JUndefined => inl (JsError (undefined_read_message key))
  | JNull => inl (JsError (null_read_message key))
  | JObject members => inr (lookup key members)
  | JBool _ | JNumber _ | JString _ | JArray _ => inr JUndefined
  end.

Section ToString.

(** [Number.prototype.toString] of the number a lexeme denotes: a
    function of the double, left to the host. *)
Variable Number_toString : jsstring -> jsstring.

(** The string a template literal substitutes for a value; [None] stands
    for the [TypeError] of an object that cannot be converted: a parsed
    object whose own [toString] member hides the inherited method (a
    member is never callable, and neither its own [valueOf] nor the
    inherited one yields a primitive). *)
Fixpoint ToString (v : JSValue) : option jsstring :=
    match v with
    | JUndefined => Some (js "undefined")
    | JNull => Some (js "null")
    | JBool true => Some (js "true")
    | JBool false => Some (js "false")
    | JNumber lexeme => Some (Number_toString lexeme)
    | JString s => Some s
    | JArray elements =>
        (fix join (l : list JSValue) : option jsstring :=
           match l with
           | [] => Some []
           | x :: rest =>
               let sx := match x with
                         | JUndefined | JNull => Some []
                         | _ => ToString x
                         end in
               match sx, rest with
               | None, _ => None
               | Some sx, [] => Some sx
               | Some sx, _ :: _ =>
                   match join rest with
                   | Some sr => Some (sx ++ js "," ++ sr)
                   | None => None
                   end
               end
           end) elements
    | JObject members =>
        match lookup (js "toString") members with
        | JUndefined => Some (js "[object Object]")
        | _ => None
        end
    end.

(** One substitution of a template literal: the property is read, then
    converted. *)
Definition substitute (v : JSValue) (key : jsstring) : Thrown + jsstring :=
    match Get v key with
    | inl e => inl e
    | inr property =>
        match ToString property with
        | Some s => inr s
        | None => inl (JsError (js "Cannot convert object to primitive value"))
        end
    end.

(** The template literal of [handleGenerate]: professional prompt,
    replication instruction and negative prompt, substituted in that
    order. *)
Definition promptToUse (engineeredPrompt : EngineeredPrompt) : Prog jsstring :=
    match substitute engineeredPrompt (js "professional_prompt") with
    | inl e => Throw e
    | inr professional_prompt =>
        match substitute engineeredPrompt (js "text_replication_instruction") with
        | inl e => Throw e
        | inr text_replication_instruction =>
            match substitute engineeredPrompt (js "negative_prompt") with
            | inl e => Throw e
            | inr negative_prompt =>
                Ret (professional_prompt ++ LF ++ LF
                     ++ text_replication_instruction ++ LF ++ LF
                     ++ js "Negative Prompt: " ++ negative_prompt)
            end
        end
    end.

End ToString.

(** The [grounding_search_query] of a parsed response is non-null. *)
Definition has_grounding_query (v : EngineeredPrompt) : bool :=
  match Get v (js "grounding_search_query") with
  | inr JUndefined | inr JNull | inl _ => false
  | inr _ => true
  end.

(** The fields the schema of the image instruction requires, as strings. *)
Definition conforms (v : EngineeredPrompt) : bool :=
  match v with
  | JObject members =>
      forallb (fun key => match lookup (js key) members with
                          | JString _ => true
                          | _ => false
                          end)
        ["professional_prompt"; "text_replication_instruction";
         "negative_prompt"]%string
  | _ => false
  end.

End Engineered.

(* ================================================================== *)
(** ** [App.tsx] *)

Module App.

(** The state hooks of [App], and the [gemini-api-key] entry of
    [localStorage]. *)
Record State : Type := {
  appState : AppState;
  errorMessage : option jsstring;
  apiKey : option jsstring;
  isApiKeyModalOpen : bool;
  apiKeyError : option jsstring;
  userPrompt : jsstring;
  referenceImages : list ImageFile;
  aspectRatio : AspectRatio;
  resultUrl : option jsstring;
  lastConfig : option GenerationConfig.t;
  localStorage : option jsstring
  }.

Definition setAppState (v : AppState) (st : State) : State :=
  {| appState := v; errorMessage := errorMessage st; apiKey := apiKey st;
     isApiKeyModalOpen := isApiKeyModalOpen st; apiKeyError := apiKeyError st;
     userPrompt := userPrompt st; referenceImages := referenceImages st;
     aspectRatio := aspectRatio st; resultUrl := resultUrl st;
     lastConfig := lastConfig st; localStorage := localStorage st |}.

Definition setErrorMessage (v : option jsstring) (st : State) : State :=
  {| appState := appState st; errorMessage := v; apiKey := apiKey st;
     isApiKeyModalOpen := isApiKeyModalOpen st; apiKeyError := apiKeyError st;
     userPrompt := userPrompt st; referenceImages := referenceImages st;
     aspectRatio := aspectRatio st; resultUrl := resultUrl st;
     lastConfig := lastConfig st; localStorage := localStorage st |}.

Definition setApiKey (v : option jsstring) (st : State) : State :=
  {| appState := appState st; errorMessage := errorMessage st; apiKey := v;
     isApiKeyModalOpen := isApiKeyModalOpen st; apiKeyError := apiKeyError st;
     userPrompt := userPrompt st; referenceImages := referenceImages st;
     aspectRatio := aspectRatio st; resultUrl := resultUrl st;
     lastConfig := lastConfig st; localStorage := localStorage st |}.

Definition setIsApiKeyModalOpen (v : bool) (st : State) : State :=
  {| appState := appState st; errorMessage := errorMessage st;
     apiKey := apiKey st; isApiKeyModalOpen := v;
     apiKeyError := apiKeyError st;
     userPrompt := userPrompt st; referenceImages := referenceImages st;
     aspectRatio := aspectRatio st; resultUrl := resultUrl st;
     lastConfig := lastConfig st; localStorage := localStorage st |}.

Definition setApiKeyError (v : option jsstring) (st : State) : State :=
  {| appState := appState st; errorMessage := errorMessage st;
     apiKey := apiKey st; isApiKeyModalOpen := isApiKeyModalOpen st;
     apiKeyError := v;
     userPrompt := userPrompt st; referenceImages := referenceImages st;
     aspectRatio := aspectRatio st; resultUrl := resultUrl st;
     lastConfig := lastConfig st; localStorage := localStorage st |}.

Definition setUserPrompt (v : jsstring) (st : State) : State :=
  {| appState := appState st; errorMessage := errorMessage st;
     apiKey := apiKey st; isApiKeyModalOpen := isApiKeyModalOpen st;
     apiKeyError := apiKeyError st;
     userPrompt := v; referenceImages := referenceImages st;
     aspectRatio := aspectRatio st; resultUrl := resultUrl st;
     lastConfig := lastConfig st; localStorage := localStorage st |}.

Definition setReferenceImages (v : list ImageFile) (st : State) : State :=
  {| appState := appState st; errorMessage := errorMessage st;
     apiKey := apiKey st; isApiKeyModalOpen := isApiKeyModalOpen st;
     apiKeyError := apiKeyError st;
     userPrompt := userPrompt st; referenceImages := v;
     aspectRatio := aspectRatio st; resultUrl := resultUrl st;
     lastConfig := lastConfig st; localStorage := localStorage st |}.

Definition setAspectRatio (v : AspectRatio) (st : State) : State :=
  {| appState := appState st; errorMessage := errorMessage st;
     apiKey := apiKey st; isApiKeyModalOpen := isApiKeyModalOpen st;
     apiKeyError := apiKeyError st;
     userPrompt := userPrompt st; referenceImages := referenceImages st;
     aspectRatio := v; resultUrl := resultUrl st;
     lastConfig := lastConfig st; localStorage := localStorage st |}.

Definition setResultUrl (v : option jsstring) (st : State) : State :=
  {| appState := appState st; errorMessage := errorMessage st;
     apiKey := apiKey st; isApiKeyModalOpen := isApiKeyModalOpen st;
     apiKeyError := apiKeyError st;
     userPrompt := userPrompt st; referenceImages := referenceImages st;
     aspectRatio := aspectRatio st; resultUrl := v;
     lastConfig := lastConfig st; localStorage := localStorage st |}.

Definition setLastConfig (v : option GenerationConfig.t) (st : State) : State :=
  {| appState := appState st; errorMessage := errorMessage st;
     apiKey := apiKey st; isApiKeyModalOpen := isApiKeyModalOpen st;
     apiKeyError := apiKeyError st;
     userPrompt := userPrompt st; referenceImages := referenceImages st;
     aspectRatio := aspectRatio st; resultUrl := resultUrl st;
     lastConfig := v; localStorage := localStorage st |}.

(** [localStorage.setItem('gemini-api-key', v)] and [removeItem]. *)
Definition setStorage (v : option jsstring) (st : State) : State :=
  {| appState := appState st; errorMessage := errorMessage st;
     apiKey := apiKey st; isApiKeyModalOpen := isApiKeyModalOpen st;
     apiKeyError := apiKeyError st;
     userPrompt := userPrompt st; referenceImages := referenceImages st;
     aspectRatio := aspectRatio st; resultUrl := resultUrl st;
     lastConfig := lastConfig st; localStorage := v |}.

(** The state of the first render, over what the browser has stored. *)
Definition initial (stored : option jsstring) : State :=
  {| appState := IDLE; errorMessage := None; apiKey := None;
     isApiKeyModalOpen := false; apiKeyError := None;
     userPrompt := []; referenceImages := [];
     aspectRatio := SQUARE; resultUrl := None;
     lastConfig := None; localStorage := stored |}.

(** The effect run once after the first render. *)
Definition mount (st : State) : State :=
  let storedApiKey := localStorage st in
  if truthy_opt storedApiKey
  then setIsApiKeyModalOpen false (setApiKey storedApiKey st)
  else setIsApiKeyModalOpen true st.

Definition handleSaveApiKey (newApiKey : jsstring) (st : State) : State :=
  setApiKeyError None
    (setIsApiKeyModalOpen false
       (setStorage (Some newApiKey) (setApiKey (Some newApiKey) st))).

Definition invalid_key_notice : jsstring :=
  js "Your API key is invalid. Please enter a valid key.".

(** The test [handleError] makes on the details of an error. *)
Definition is_api_key_error (errorDetails : jsstring) : bool :=
  includes errorDetails (js "API key not valid")
  || includes errorDetails (js "API_KEY_INVALID").

(** [error instanceof Error ? error.message : 'An unknown error occurred.'] *)
Definition errorDetails_of (error : option Thrown) : jsstring :=
  match error with
  | Some (JsError message) => message
  | Some NotAnError | None => js "An unknown error occurred."
  end.

Definition handleError (message : jsstring) (error : option Thrown)
  (state : AppState) (st : State) : State :=
  let errorDetails := errorDetails_of error in
  (* Check for common API key errors *)
  if is_api_key_error errorDetails then
    setAppState IDLE
      (setIsApiKeyModalOpen true
         (setApiKeyError (Some invalid_key_notice)
            (setApiKey None (setStorage None st))))
  else
    let userFriendlyMessage := message ++ js ": " ++ errorDetails in
    setAppState state (setErrorMessage (Some userFriendlyMessage) st).

Definition handleStartOver (st : State) : State :=
  setAspectRatio SQUARE
    (setLastConfig None
       (setReferenceImages []
          (setUserPrompt []
             (setErrorMessage None
                (setResultUrl None (setAppState IDLE st)))))).

(** The three updates [handleGenerate] makes before its [try] block. *)
Definition begin_loading (st : State) : State :=
  setErrorMessage None (setResultUrl None (setAppState LOADING st)).

(** *** What the component renders *)

Definition AppState_eqb (a b : AppState) : bool :=
  match a, b with
  | IDLE, IDLE | LOADING, LOADING | SUCCESS, SUCCESS | ERROR, ERROR => true
  | _, _ => false
  end.

Definition isLoading (st : State) : bool := AppState_eqb (appState st) LOADING.

(** [<ApiKeyModal>] *)
Definition shows_credential_prompt (st : State) : bool := isApiKeyModalOpen st.

(** [<LoadingIndicator>] *)
Definition shows_loading (st : State) : bool := isLoading st.

(** [renderError(errorMessage)] *)
Definition shows_error (st : State) : bool :=
  AppState_eqb (appState st) ERROR && truthy_opt (errorMessage st).

(** [<ImageResult>] *)
Definition shows_success (st : State) : bool :=
  AppState_eqb (appState st) SUCCESS && truthy_opt (resultUrl st).

(** The generation form. *)
Definition shows_form (st : State) : bool :=
  negb (isLoading st) && negb (AppState_eqb (appState st) SUCCESS).

(** The Generate button is in the form, enabled unless
    [isLoading || !userPrompt]. *)
Definition generate_enabled (st : State) : bool :=
  shows_form st && negb (isLoading st || negb (truthy (userPrompt st))).

(** How many of the loading indicator, the success view, the error view
    and the credential prompt are rendered. *)
Definition views_shown (st : State) : nat :=
  (if shows_loading st then 1 else 0) + (if shows_success st then 1 else 0)
  + (if shows_error st then 1 else 0)
  + (if shows_credential_prompt st then 1 else 0).

Section Host.

(** The string value of each member of the [AspectRatio] enumeration
    ([types.ts], not among the sources). *)
Variable AspectRatio_value : AspectRatio -> jsstring.
Variable Number_toString : jsstring -> jsstring.

(** The [else] branch of the [try] block: quoting, plates, engineering,
    and the configuration they give. *)
Definition first_config (currentPrompt key : jsstring) (st : State)
  : Prog GenerationConfig.t :=
  quotedPrompt <- GeminiService.addQuotesToPrompt currentPrompt key ;;
  textPlates <- await (extractTextAndGeneratePlates quotedPrompt) ;;
  engineeredPrompt <-
    GeminiService.engineerPrompt quotedPrompt IMAGE textPlates
      (referenceImages st) (AspectRatio_value (aspectRatio st)) key ;;
  promptToUse <- Engineered.promptToUse Number_toString engineeredPrompt ;;
  Ret {| GenerationConfig.prompt := promptToUse;
         GenerationConfig.textPlates := textPlates;
         GenerationConfig.referenceImages := referenceImages st |}.

(** [handleGenerate(retryConfig)], from the state [st] it was rendered
    with, to the state its updates leave.  The [catch] clause sees the
    updates made before the failure: [setLastConfig] when the failure
    is the image generation's. *)
Definition handleGenerate (retryConfig : option GenerationConfig.t)
  (st : State) : Prog State :=
  match apiKey st with
  | None | Some [] =>
      Ret (setApiKeyError
             (Some (js "An API key is required to generate images."))
             (setIsApiKeyModalOpen true st))
  | Some key =>
      let isRetry := match retryConfig with Some _ => true | None => false end in
      let currentPrompt := if isRetry then [] else userPrompt st in
      if negb isRetry && negb (truthy (trim currentPrompt)) then
        Ret (handleError (js "Please enter a prompt to generate.") None ERROR st)
      else
        let st := begin_loading st in
        try_catch
          (cfg <- match retryConfig with
                  | Some retryConfig => Ret retryConfig
                  | None => first_config currentPrompt key st
                  end ;;
           let st := setLastConfig (Some cfg) st in
           try_catch
             (objectUrl <- GeminiService.generateImage
                             (GenerationConfig.prompt cfg)
                             (GenerationConfig.textPlates cfg)
                             (GenerationConfig.referenceImages cfg) key ;;
              Ret (setAppState SUCCESS (setResultUrl (Some objectUrl) st)))
             (fun error =>
                Ret (handleError (js "Generation failed") (Some error) ERROR st)))
          (fun error =>
             Ret (handleError (js "Generation failed") (Some error) ERROR st))
  end.

(** The configuration a generation runs with. *)
Definition config_prog (retryConfig : option GenerationConfig.t)
  (key : jsstring) (st : State) : Prog GenerationConfig.t :=
  match retryConfig with
  | Some retryConfig => Ret retryConfig
  | None => first_config (userPrompt st) key (begin_loading st)
  end.

(** The state a started generation settles in. *)
Definition settle (st : State) (config : Thrown + GenerationConfig.t)
  (image : Thrown + jsstring) : State :=
  match config with
  | inl e => handleError (js "Generation failed") (Some e) ERROR (begin_loading st)
  | inr cfg =>
    let st2 := setLastConfig (Some cfg) (begin_loading st) in
    match image with
    | inl e => handleError (js "Generation failed") (Some e) ERROR st2
    | inr objectUrl => setAppState SUCCESS (setResultUrl (Some objectUrl) st2)
    end
  end.

(** *** The component as a transition system *)

(** [handleGenerate] gets past its two early returns: there is a key,
    and this is a retry or the prompt is not blank. *)
Definition passes_guards (retryConfig : option GenerationConfig.t)
  (st : State) : bool :=
  truthy_opt (apiKey st)
  && (match retryConfig with Some _ => true | None => false end
      || truthy (trim (userPrompt st))).

(** One user action on a rendered control, or the settling of a
    generation.  A generation is seen twice: when it starts (the
    loading state) and when it has settled, with the state the handler
    leaves for the way [env] settled its calls. *)
Inductive step : State -> State -> Prop :=
  | step_save_key (st : State) (newApiKey : jsstring) :
      shows_credential_prompt st = true ->
      step st (handleSaveApiKey newApiKey st)
  | step_type_prompt (st : State) (value : jsstring) :
      shows_form st = true ->
      step st (setUserPrompt value st)
  | step_pick_ratio (st : State) (r : AspectRatio) :
      shows_form st = true ->
      step st (setAspectRatio r st)
  | step_pick_images (st : State) (images : list ImageFile) :
      shows_form st = true ->
      step st (setReferenceImages images st)
  | step_generate_starts (st : State) :
      generate_enabled st = true ->
      passes_guards None st = true ->
      step st (begin_loading st)
  | step_generate_settles (st : State) (env : Oracle) (st' : State) :
      generate_enabled st = true ->
      outcome_of (handleGenerate None st) env = inr st' ->
      step st st'
  | step_retry_starts (st : State) :
      shows_success st = true ->
      passes_guards (lastConfig st) st = true ->
      step st (begin_loading st)
  | step_retry_settles (st : State) (env : Oracle) (st' : State) :
      shows_success st = true ->
      outcome_of (handleGenerate (lastConfig st) st) env = inr st' ->
      step st st'
  | step_start_over (st : State) :
      shows_error st = true \/ shows_success st = true ->
      step st (handleStartOver st).

(** The states the component can be in: the first render, the state
    after the mount effect, and what user actions lead to from there. *)
Inductive reachable : State -> Prop :=
  | reachable_initial (stored : option jsstring) :
      reachable (initial stored)
  | reachable_mounted (stored : option jsstring) :
      reachable (mount (initial stored))
  | reachable_step (st st' : State) :
      reachable st -> step st st' -> reachable st'.

(** What holds of every reachable state. *)
Definition invariant (st : State) : Prop :=
  (isApiKeyModalOpen st = true -> truthy_opt (apiKey st) = false)
  /\ (truthy_opt (apiKey st) = false -> appState st = IDLE)
  /\ (appState st = SUCCESS -> truthy_opt (resultUrl st) = true)
  /\ (appState st = ERROR -> truthy_opt (errorMessage st) = true).

End Host.

End App.

(* ================================================================== *)
(** ** Scripted environments *)

Module Scenario.

(** How the environment settles the calls of each stage. *)
Record Script : Type := {
  quoting : Thrown + GenerateContentResponse;
  plates : Thrown + list ImageFile;
  engineering : Thrown + GenerateContentResponse;
  grounding : Thrown + GenerateContentResponse;
  generation : Thrown + GenerateContentResponse
  }.

Definition scripted (s : Script) : Oracle :=
  fun _ c =>
    match c return Settled c with
    | generateContent In_addQuotesToPrompt _ _ => quoting s
    | generateContent In_engineerPrompt _ _ => engineering s
    | generateContent In_getGroundingImage _ _ => grounding s
    | generateContent In_generateImage _ _ => generation s
    | extractTextAndGeneratePlates _ => plates s
    | fetch _ => inr tt
    | read_blob _ => inr tt
    end.

Definition says (t : jsstring) : Thrown + GenerateContentResponse :=
  inr (answer t [text_part t]).

Definition image (base64 : jsstring) : Thrown + GenerateContentResponse :=
  inr (answer [] [text_part (js "Here is your image.");
                  inlineData_part (js "image/png") base64;
                  inlineData_part (js "image/png") (js "second")]).

Definition plate (n : nat) : ImageFile :=
  {| file := {| name := js "text_plate_" ++ of_nat n ++ js ".png";
                type := js "image/png" |};
     base64 := js "cGxhdGU=" |}.

Definition upload : ImageFile :=
  {| file := {| name := js "tower.jpg"; type := js "image/jpeg" |};
     base64 := js "dG93ZXI=" |}.

(** The end-to-end scenario: a stop sign, one plate, no grounding query. *)
Definition stop_sign : Script :=
  {| quoting := says (jsq "A stop sign at an intersection that says `STOP`");
     plates := inr [plate 1];
     engineering := says (jsq
       "{`analysis_notes`: `n`, `grounding_search_query`: null, `target_model`: `image`, `professional_prompt`: `A red octagonal sign.`, `text_replication_instruction`: `Replicate text_plate_1.png.`, `negative_prompt`: `blurry`}");
     grounding := inl (JsError (js "not asked"));
     generation := image (js "aW1hZ2U=") |}.

(** A prompt naming a landmark: the engineered prompt carries a query. *)
Definition azadi_tower : Script :=
  {| quoting := says (js "a photo of the Azadi Tower at sunset");
     plates := inr [];
     engineering := says (jsq
       "{`analysis_notes`: `n`, `grounding_search_query`: `Azadi Tower Tehran`, `target_model`: `image`, `professional_prompt`: `The tower must replicate 'grounding_reference.png'.`, `text_replication_instruction`: `None.`, `negative_prompt`: `blurry`}");
     grounding := image (js "dG93ZXI=");
     generation := image (js "aW1hZ2U=") |}.

(** Every request fails in transport. *)
Definition offline : Script :=
  {| quoting := inl (JsError (js "Failed to fetch"));
     plates := inr [];
     engineering := inl (JsError (js "Failed to fetch"));
     grounding := inl (JsError (js "Failed to fetch"));
     generation := inl (JsError (js "Failed to fetch")) |}.

(** The engineering model answers with prose. *)
Definition chatty : Script :=
  {| quoting := says [];
     plates := inr [];
     engineering := says (js "Sure! Here is your prompt.");
     grounding := inl NotAnError;
     generation := says (js "I cannot draw that.") |}.

(** The engineering model answers with JSON of another shape. *)
Definition off_schema : Script :=
  {| quoting := says [];
     plates := inr [];
     engineering := says (jsq "{`professional_prompt`: 7}");
     grounding := inl NotAnError;
     generation := image (js "aW1hZ2U=") |}.

Definition ratio (a : AspectRatio) : jsstring :=
  match a with
  | SQUARE => js "1:1"
  | PORTRAIT => js "9:16"
  | LANDSCAPE => js "16:9"
  end.

(** A host that prints a number as it was written. *)
Definition as_written (lexeme : jsstring) : jsstring := lexeme.

(** The component after mounting over a stored key. *)
Definition mounted : App.State := App.mount (App.initial (Some (js "key"))).

(** The same, with a prompt typed. *)
Definition ready (userPrompt : jsstring) : App.State :=
  App.setUserPrompt userPrompt mounted.

(** The state the component is in once [handleGenerate] has settled. *)
Definition settled (retryConfig : option GenerationConfig.t) (st : App.State)
  (s : Script) : App.State :=
  match outcome_of (App.handleGenerate ratio as_written retryConfig st)
          (scripted s) with
  | inr st' => st'
  | inl _ => st
  end.

(** The stop-sign scenario, run to its end. *)
Definition stop_sign_done : App.State :=
  settled None (ready (js "A stop sign at an intersection")) stop_sign.

(** A rejection of the key by the endpoint, and a failure of another
    kind. *)
Definition key_rejected : Thrown :=
  JsError (js "[400] API key not valid. Please pass a valid API key.").

Definition quota_exceeded : Thrown :=
  JsError (js "[429] Resource has been exhausted.").

End Scenario.

(* ================================================================== *)
(** ** Reading the calls of a run *)

(** The key of the client a request was made with. *)
Definition key_of (c : Call) : option jsstring :=
  match c with
  | generateContent _ apiKey _ => Some apiKey
  | _ => None
  end.

(** The instruction template a request carries. *)
Definition instruction_of (c : Call) : option SystemInstruction :=
  match c with
  | generateContent _ _ params => systemInstruction (config params)
  | _ => None
  end.

(** The prompt the template literal gives when the three fields it reads
    are all [undefined]. *)
Definition undefined_prompt : jsstring :=
  js "undefined" ++ LF ++ LF ++ js "undefined" ++ LF ++ LF
  ++ js "Negative Prompt: undefined".

(** With a usable key in memory, the stored key is that key and no notice
    about the key is pending. *)
Definition credentials_agree (st : App.State) : Prop :=
  truthy_opt (App.apiKey st) = true ->
  App.apiKey st = App.localStorage st /\ App.apiKeyError st = None.

(** More scripted environments. *)
Module Cases.

Import Scenario.

(** The quoting model is unreachable; the other stages answer. *)
Definition quoting_down : Script :=
  {| quoting := inl (JsError (js "Failed to fetch"));
     plates := plates stop_sign;
     engineering := engineering stop_sign;
     grounding := grounding stop_sign;
     generation := generation stop_sign |}.

(** The engineering model answers with the JSON text [null]. *)
Definition null_answer : Script :=
  {| quoting := says [];
     plates := inr [];
     engineering := says (js "null");
     grounding := inl NotAnError;
     generation := image (js "aW1hZ2U=") |}.

(** The engineering model answers with a bare number. *)
Definition number_answer : Script :=
  {| quoting := says [];
     plates := inr [];
     engineering := says (js "42");
     grounding := inl NotAnError;
     generation := image (js "aW1hZ2U=") |}.

(** Everything answers, but the image model returns text only. *)
Definition no_picture : Script :=
  {| quoting := quoting stop_sign;
     plates := plates stop_sign;
     engineering := engineering stop_sign;
     grounding := grounding stop_sign;
     generation := says (js "I cannot draw that.") |}.

(** The key is rejected at the last stage. *)
Definition key_revoked : Script :=
  {| quoting := quoting stop_sign;
     plates := plates stop_sign;
     engineering := engineering stop_sign;
     grounding := grounding stop_sign;
     generation := inl key_rejected |}.

(** A response whose image is declared a JPEG. *)
Definition jpeg_response : GenerateContentResponse :=
  answer [] [text_part (js "Reference:");
             inlineData_part (js "image/jpeg") (js "dG93ZXI=")].

(** The response to a prompt the service blocked: no candidates, no text. *)
Definition blocked : GenerateContentResponse :=
  {| Response.text := None; Response.candidates := None |}.

(** Everything answers, but the image request is blocked. *)
Definition image_blocked : Script :=
  {| quoting := quoting stop_sign;
     plates := plates stop_sign;
     engineering := engineering stop_sign;
     grounding := inr blocked;
     generation := inr blocked |}.

Definition grounded : Oracle :=
  scripted {| quoting := says [];
              plates := inr [];
              engineering := says [];
              grounding := inr jpeg_response;
              generation := says [] |}.

(** The state left by the stop-sign prompt under a script. *)
Definition after (s : Script) : App.State :=
  settled None (ready (js "A stop sign at an intersection")) s.

End Cases.

Example parse_obj :
  JSON.parse (jsq "{`a`: [1, true, null], `b`: `x\ny`}")
  = Some (JObject [(js "a", JArray [JNumber (js "1"); JBool true; JNull]);
                   (js "b", JString [120; 10; 121]%N)]).
Proof. vm_compute. reflexivity. Qed.

(* ================================================================== *)
(** ** [JSON.parse]: the fuel is enough *)

Section Fuel.

Lemma skip_ws_length (s : jsstring) : List.length (skip_ws s) <= List.length s.
Proof.
  induction s as [|c s IH]; simpl; [lia|].
  destruct (is_ws c); simpl; lia.
Qed.

Lemma expect_length (c : N) (s r : jsstring) :
  expect c s = Some r -> List.length s = S (List.length r).
Proof.
  destruct s as [|x s]; simpl; [discriminate|].
  destruct (N.eqb x c); [intros [= <-]; reflexivity | discriminate].
Qed.

Lemma span_digits_length (s : jsstring) :
  List.length (snd (span_digits s)) <= List.length s.
Proof.
  induction s as [|c s IH]; simpl; [lia|].
  destruct (is_digit c); simpl; [|lia].
  destruct (span_digits s); simpl in *. lia.
Qed.

Lemma digits1_length (s d r : jsstring) :
  digits1 s = Some (d, r) -> List.length r <= List.length s.
Proof.
  unfold digits1. pose proof (span_digits_length s) as L.
  destruct (span_digits s) as [[|x d'] r']; [discriminate|].
  intros [= <- <-]. exact L.
Qed.

Lemma int_part_length (s d r : jsstring) :
  int_part s = Some (d, r) -> List.length r < List.length s.
Proof.
  destruct s as [|c s]; simpl; [discriminate|].
  destruct (N.eqb c 48); [intros [= <- <-]; lia|].
  destruct (is_digit c); [|discriminate].
  pose proof (span_digits_length s) as L.
  destruct (span_digits s); intros [= <- <-]. simpl in L. lia.
Qed.

Lemma frac_part_length (s d r : jsstring) :
  frac_part s = Some (d, r) -> List.length r <= List.length s.
Proof.
  unfold frac_part. destruct (expect 46 s) as [r0|] eqn:E.
  - apply expect_length in E.
    destruct (digits1 r0) as [[d' r']|] eqn:D; [|discriminate].
    intros [= <- <-]. apply digits1_length in D. lia.
  - intros [= <- <-]. lia.
Qed.

Lemma exp_part_length (s d r : jsstring) :
  exp_part s = Some (d, r) -> List.length r <= List.length s.
Proof.
  unfold exp_part. destruct s as [|c s]; [intros [= <- <-]; lia|].
  destruct (N.eqb c 101 || N.eqb c 69); [|intros [= <- <-]; lia].
  destruct s as [|c' s'].
  - simpl. discriminate.
  - destruct (N.eqb c' 43 || N.eqb c' 45).
    + destruct (digits1 s') as [[d' r']|] eqn:D; [|discriminate].
      intros [= <- <-]. apply digits1_length in D. simpl. lia.
    + destruct (digits1 (c' :: s')) as [[d' r']|] eqn:D; [|discriminate].
      intros [= <- <-]. apply digits1_length in D. simpl in *. lia.
Qed.

Lemma parse_number_length (s n r : jsstring) :
  parse_number s = Some (n, r) -> List.length r < List.length s.
Proof.
  unfold parse_number.
  assert (H : forall minus s0, List.length s0 <= List.length s ->
    match int_part s0 with
    | Some (i, s1) =>
        match frac_part s1 with
        | Some (f, s2) =>
            match exp_part s2 with
            | Some (e, s3) => Some (minus ++ i ++ f ++ e, s3)
            | None => None
            end
        | None => None
        end
    | None => None
    end = Some (n, r) -> List.length r < List.length s).
  { intros minus s0 L.
    destruct (int_part s0) as [[i s1]|] eqn:I; [|discriminate].
    destruct (frac_part s1) as [[f s2]|] eqn:F; [|discriminate].
    destruct (exp_part s2) as [[e s3]|] eqn:E; [|discriminate].
    intros [= _ <-].
    apply int_part_length in I. apply frac_part_length in F.
    apply exp_part_length in E. lia. }
  destruct (expect 45 s) as [r0|] eqn:E.
  - apply expect_length in E. apply H. lia.
  - apply H. lia.
Qed.

Lemma startsWith_length (s sub : jsstring) :
  startsWith s sub = true -> List.length sub <= List.length s.
Proof.
  revert s. induction sub as [|a sub IH]; intros s; simpl; [lia|].
  destruct s as [|b s]; [discriminate|].
  intros H. apply andb_true_iff in H as [_ H]. apply IH in H. simpl. lia.
Qed.

Lemma parse_literal_length (s r : jsstring) (v : JSValue) :
  parse_literal s = Some (v, r) -> List.length r < List.length s.
Proof.
  unfold parse_literal.
  destruct (startsWith s (js "null")) eqn:H1.
  { intros H. assert (Hr : r = skipn 4 s) by congruence. subst r.
    apply startsWith_length in H1. rewrite length_skipn.
    change (List.length (js "null")) with 4 in H1. lia. }
  destruct (startsWith s (js "true")) eqn:H2.
  { intros H. assert (Hr : r = skipn 4 s) by congruence. subst r.
    apply startsWith_length in H2. rewrite length_skipn.
    change (List.length (js "true")) with 4 in H2. lia. }
  destruct (startsWith s (js "false")) eqn:H3.
  { intros H. assert (Hr : r = skipn 5 s) by congruence. subst r.
    apply startsWith_length in H3. rewrite length_skipn.
    change (List.length (js "false")) with 5 in H3. lia. }
  destruct (parse_number s) as [[n r']|] eqn:P; [|discriminate].
  intros [= _ <-]. exact (@parse_number_length _ _ _ P).
Qed.

Lemma parse_string_length (s : jsstring) :
  forall acc str r,
    parse_string s acc = Some (str, r) -> List.length r < List.length s.
Proof.
  assert (H : forall n s, List.length s <= n -> forall acc str r,
               parse_string s acc = Some (str, r) ->
               List.length r < List.length s).
  { clear s. induction n as [|n IH]; intros s Hn acc str r.
    - destruct s; [discriminate | simpl in Hn; lia].
    - destruct s as [|c s]; cbn [parse_string]; [discriminate|].
      cbn [List.length] in *.
      destruct (N.eqb c 34); [intros [= _ <-]; lia|].
      destruct (N.eqb c 92).
      + destruct s as [|e r1]; [discriminate|].
        destruct (N.eqb e 117).
        * destruct r1 as [|a [|b [|c' [|d r2]]]]; try discriminate.
          destruct (hex4 a b c' d); [|discriminate].
          intros H. apply IH in H; cbn [List.length] in *; lia.
        * destruct (escape e); [|discriminate].
          intros H. apply IH in H; cbn [List.length] in *; lia.
      + destruct (N.ltb c 32); [discriminate|].
        intros H. apply IH in H; lia. }
  exact (H (List.length s) s (le_n _)).
Qed.

Lemma enough_fuel (f : nat) : enough f.
Proof.
  induction f as [|f (IHv & IHe & IHm)].
  { repeat split; intros; discriminate. }
  split; [|split].
  - intros s v r. cbn [parse_value].
    pose proof (skip_ws_length s) as Ls.
    destruct (skip_ws s) as [|c r0] eqn:Es; [discriminate|].
    cbn [List.length] in Ls.
    destruct (N.eqb c 123) eqn:E1.
    { pose proof (skip_ws_length r0) as L0.
      destruct (expect 125 (skip_ws r0)) as [r'|] eqn:Ex.
      - intros [= <- <-]. pose proof (@expect_length _ _ _ Ex) as Lx.
        split; [lia|]. intros g Hg. destruct g as [|g]; [lia|].
        cbn [parse_value]. now rewrite Es, E1, Ex.
      - intros H. apply IHm in H as [Hl Hg]. split; [lia|].
        intros g Hg'. destruct g as [|g]; [lia|].
        cbn [parse_value]. rewrite Es, E1, Ex. apply Hg. lia. }
    destruct (N.eqb c 91) eqn:E2.
    { pose proof (skip_ws_length r0) as L0.
      destruct (expect 93 (skip_ws r0)) as [r'|] eqn:Ex.
      - intros [= <- <-]. pose proof (@expect_length _ _ _ Ex) as Lx.
        split; [lia|]. intros g Hg. destruct g as [|g]; [lia|].
        cbn [parse_value]. now rewrite Es, E1, E2, Ex.
      - intros H. apply IHe in H as [Hl Hg]. split; [lia|].
        intros g Hg'. destruct g as [|g]; [lia|].
        cbn [parse_value]. rewrite Es, E1, E2, Ex. apply Hg. lia. }
    destruct (N.eqb c 34) eqn:E3.
    { destruct (parse_string r0 []) as [[str r']|] eqn:Ps; [|discriminate].
      intros [= <- <-]. pose proof (@parse_string_length _ _ _ _ Ps) as Lp.
      split; [lia|]. intros g Hg. destruct g as [|g]; [lia|].
      cbn [parse_value]. now rewrite Es, E1, E2, E3, Ps. }
    intros H. pose proof (@parse_literal_length _ _ _ H) as Hl.
    cbn [List.length] in Hl. split; [lia|].
    intros g Hg. destruct g as [|g]; [lia|].
    cbn [parse_value]. now rewrite Es, E1, E2, E3.
  - intros s acc v r. cbn [parse_elements].
    destruct (parse_value f s) as [[v1 r1]|] eqn:Pv; [|discriminate].
    destruct (IHv _ _ _ Pv) as [Lv Gv].
    pose proof (skip_ws_length r1) as L1.
    destruct (skip_ws r1) as [|c r'] eqn:Es; [discriminate|].
    cbn [List.length] in L1.
    destruct (N.eqb c 44) eqn:E1.
    { intros H. apply IHe in H as [Hl Hg]. split; [lia|].
      intros g Hg'. destruct g as [|g]; [lia|].
      cbn [parse_elements]. rewrite (Gv g) by lia. rewrite Es, E1.
      apply Hg. lia. }
    destruct (N.eqb c 93) eqn:E2; [|discriminate].
    intros [= <- <-]. split; [lia|].
    intros g Hg. destruct g as [|g]; [lia|].
    cbn [parse_elements]. rewrite (Gv g) by lia. now rewrite Es, E1, E2.
  - intros s acc v r. cbn [parse_members].
    pose proof (skip_ws_length s) as Ls.
    destruct (expect 34 (skip_ws s)) as [r0|] eqn:Ex; [|discriminate].
    pose proof (@expect_length _ _ _ Ex) as Lx.
    destruct (parse_string r0 []) as [[key r1]|] eqn:Ps; [|discriminate].
    pose proof (@parse_string_length _ _ _ _ Ps) as Lp.
    pose proof (skip_ws_length r1) as L1.
    destruct (expect 58 (skip_ws r1)) as [r2|] eqn:Ec; [|discriminate].
    pose proof (@expect_length _ _ _ Ec) as Lc.
    destruct (parse_value f r2) as [[v1 r3]|] eqn:Pv; [|discriminate].
    destruct (IHv _ _ _ Pv) as [Lv Gv].
    pose proof (skip_ws_length r3) as L3.
    destruct (skip_ws r3) as [|c r4] eqn:Es; [discriminate|].
    cbn [List.length] in L3.
    destruct (N.eqb c 44) eqn:E1.
    { intros H. apply IHm in H as [Hl Hg]. split; [lia|].
      intros g Hg'. destruct g as [|g]; [lia|].
      cbn [parse_members]. rewrite Ex, Ps, Ec. rewrite (Gv g) by lia.
      rewrite Es, E1. apply Hg. lia. }
    destruct (N.eqb c 125) eqn:E2; [|discriminate].
    intros [= <- <-]. split; [lia|].
    intros g Hg. destruct g as [|g]; [lia|].
    cbn [parse_members]. rewrite Ex, Ps, Ec. rewrite (Gv g) by lia.
    now rewrite Es, E1, E2.
Qed.

(** No amount of fuel finds a value where [parse] finds none: its [None]
    is a text outside the grammar. *)
Lemma parse_fuel_irrelevant (fuel : nat) (text r : jsstring) (v : JSValue) :
  parse_value fuel text = Some (v, r) ->
  skip_ws r = [] ->
  JSON.parse text = Some v.
Proof.
  intros Hp Hr. unfold JSON.parse.
  destruct (enough_fuel fuel) as (Hv & _).
  destruct (Hv _ _ _ Hp) as [_ Hg].
  rewrite (Hg (2 * List.length text + 2)) by lia. now rewrite Hr.
Qed.

End Fuel.

(* ================================================================== *)
(** ** Strings: lemmas *)

Section StringLemmas.

Lemma trimStart_blank (s : jsstring) :
    Forall (fun c => isWhiteSpace c = true) s -> trimStart s = [].
Proof.
    induction 1 as [|c s Hc _ IH]; simpl; [reflexivity|].
    now rewrite Hc.
Qed.

Lemma trimStart_nil_blank (s : jsstring) :
    trimStart s = [] -> Forall (fun c => isWhiteSpace c = true) s.
Proof.
    induction s as [|c s IH]; simpl; [constructor|].
    destruct (isWhiteSpace c) eqn:Hc; [|discriminate].
    intros H. constructor; auto.
Qed.

(** What [trimStart] keeps is empty or starts with a visible code unit. *)
Lemma trimStart_head (s : jsstring) :
    match trimStart s with
    | [] => True
    | c :: _ => isWhiteSpace c = false
    end.
Proof.
    induction s as [|c s IH]; simpl; [exact I|].
    destruct (isWhiteSpace c) eqn:Hc; [exact IH | exact Hc].
Qed.

(** [trim] leaves nothing exactly of the strings made of white space. *)
Lemma trim_nil_iff (s : jsstring) :
    trim s = [] <-> Forall (fun c => isWhiteSpace c = true) s.
Proof.
    unfold trim, trimEnd. split.
    - intros H. apply trimStart_nil_blank.
      assert (Hr : trimStart (rev (trimStart s)) = []).
      { rewrite <- (rev_involutive (trimStart (rev (trimStart s)))), H.
        reflexivity. }
      apply trimStart_nil_blank in Hr.
      pose proof (trimStart_head s) as Hh.
      destruct (trimStart s) as [|c r]; [reflexivity|].
      apply Forall_rev in Hr. rewrite rev_involutive in Hr.
      inversion Hr; subst. congruence.
    - intros H. rewrite (trimStart_blank H). reflexivity.
Qed.

Lemma startsWith_app (sub rest : jsstring) : startsWith (sub ++ rest) sub = true.
Proof.
    induction sub as [|a sub IH]; simpl; [reflexivity|].
    now rewrite N.eqb_refl, IH.
Qed.

(** A string includes each of its suffixes. *)
Lemma includes_suffix (pre sub : jsstring) : includes (pre ++ sub) sub = true.
Proof.
    induction pre as [|a pre IH]; simpl.
    - destruct sub; simpl.
      + reflexivity.
      + rewrite N.eqb_refl. simpl.
        rewrite <- (app_nil_r sub) at 1. now rewrite startsWith_app.
    - rewrite IH. apply orb_true_r.
Qed.

End StringLemmas.

(* ================================================================== *)
(** ** Running programs: lemmas *)

Section RunLemmas.

Context {A : Type}.

Lemma run_Await (c : Call) (k : Settled c -> Prog A) (env : Oracle) (n : nat) :
    run (Await c k) env n
    = (c :: fst (run (k (env n c)) env (S n)), snd (run (k (env n c)) env (S n))).
Proof. simpl. destruct (run (k (env n c)) env (S n)). reflexivity. Qed.

(** A [try] whose [catch] clause returns never throws. *)
Lemma try_catch_returns (p : Prog A) (h : Thrown -> A) (env : Oracle) (n : nat) :
    exists a, snd (run (try_catch p (fun e => Ret (h e))) env n) = inr a.
Proof.
    revert n. induction p as [a|e|c k IH]; intros n.
    - exists a. reflexivity.
    - exists (h e). reflexivity.
    - cbn [try_catch]. rewrite run_Await. cbn [snd]. apply IH.
Qed.

End RunLemmas.

(* ================================================================== *)
(** ** The quoting client *)

Section Quoting.

Import GeminiService.

Variables (userPrompt key : jsstring) (env : Oracle).

(** C4.  For every prompt that is empty or made of white space only,
    [addQuotesToPrompt] is the program that returns its input at once: it
    awaits nothing, so whatever the environment no call is made, and the
    result is the prompt, unchanged. *)
Theorem addQuotesToPrompt_blank :
    Forall (fun c => isWhiteSpace c = true) userPrompt ->
    addQuotesToPrompt userPrompt key = Ret userPrompt
    /\ calls_of (addQuotesToPrompt userPrompt key) env = []
    /\ outcome_of (addQuotesToPrompt userPrompt key) env = inr userPrompt.
Proof.
    intros H. apply trim_nil_iff in H.
    unfold calls_of, outcome_of, addQuotesToPrompt. rewrite H. simpl.
    repeat split.
Qed.

(** C3.  For every non-empty prompt [addQuotesToPrompt] returns a string,
    it never throws; when the text-generation call fails, whatever the
    error, and when the text of the response is the empty string, what it
    returns is the original prompt. *)
Theorem addQuotesToPrompt_never_throws :
    userPrompt <> [] ->
    (exists quoted,
        outcome_of (addQuotesToPrompt userPrompt key) env = inr quoted)
    /\ (forall e,
           env 0 (quote_request userPrompt key) = inl e ->
           outcome_of (addQuotesToPrompt userPrompt key) env = inr userPrompt)
    /\ (forall response,
           env 0 (quote_request userPrompt key) = inr response ->
           response_text response = [] ->
           outcome_of (addQuotesToPrompt userPrompt key) env = inr userPrompt).
Proof.
    intros _. unfold outcome_of, addQuotesToPrompt.
    destruct (truthy (trim userPrompt)); cbn [negb].
    - split; [apply try_catch_returns with (h := fun _ => userPrompt)|].
      cbn [await bind try_catch]. rewrite run_Await. cbn [snd].
      split.
      + intros e He. rewrite He. reflexivity.
      + intros response Hr Hempty. rewrite Hr. unfold response_text in Hempty.
        cbn. destruct (Response.text response) as [text|]; [|reflexivity].
        cbn. rewrite Hempty. reflexivity.
    - split; [exists userPrompt; reflexivity|].
      split; reflexivity.
Qed.

End Quoting.

(* ================================================================== *)
(** ** The engineering client *)

Section PairsOfParts.

Variables (A : Type) (label : nat -> A -> Part) (payload : A -> Part).

Lemma forEach_from_length (array : list A) :
    forall (index : nat) (acc : list Part),
      List.length (forEach_from
        (fun parts x i => push (push parts (label i x)) (payload x))
        array index acc)
      = List.length acc + 2 * List.length array.
Proof.
    induction array as [|x rest IH]; intros index acc; simpl.
    - lia.
    - rewrite IH. unfold push. rewrite !length_app. simpl. lia.
Qed.

(** The loop leaves what the array held before it where it was. *)
Lemma forEach_from_keeps (array : list A) :
    forall (index : nat) (acc : list Part) (n : nat),
      n < List.length acc ->
      nth_error (forEach_from
        (fun parts x i => push (push parts (label i x)) (payload x))
        array index acc) n
      = nth_error acc n.
Proof.
    induction array as [|x rest IH]; intros index acc n Hn; simpl.
    - reflexivity.
    - rewrite IH.
      + unfold push. rewrite !nth_error_app1; auto.
        rewrite length_app. simpl. lia.
      + unfold push. rewrite !length_app. simpl. lia.
Qed.

(** The element at position [i] of the array gives the two parts at
    offsets [2 * i] and [2 * i + 1] after what the array held. *)
Lemma forEach_from_nth (array : list A) :
    forall (index : nat) (acc : list Part) (i : nat) (x : A),
      nth_error array i = Some x ->
      let parts := forEach_from
        (fun parts x i => push (push parts (label i x)) (payload x))
        array index acc in
      nth_error parts (List.length acc + 2 * i) = Some (label (index + i) x)
      /\ nth_error parts (List.length acc + 2 * i + 1) = Some (payload x).
Proof.
    induction array as [|y rest IH]; intros index acc i x Hi;
      cbn [forEach_from]; cbv zeta.
    - destruct i; discriminate.
    - destruct i as [|i]; cbn [nth_error] in Hi.
      + injection Hi as ->.
        rewrite !forEach_from_keeps
          by (unfold push; rewrite !length_app; cbn [List.length]; lia).
        replace (List.length acc + 2 * 0) with (List.length acc) by lia.
        replace (index + 0) with index by lia.
        unfold push. split.
        * rewrite nth_error_app1 by (rewrite length_app; cbn [List.length]; lia).
          rewrite nth_error_app2 by lia.
          rewrite Nat.sub_diag. reflexivity.
        * rewrite nth_error_app2 by (rewrite length_app; cbn [List.length]; lia).
          rewrite length_app. cbn [List.length].
          rewrite Nat.sub_diag. reflexivity.
      + specialize (IH (S index) (push (push acc (label index y)) (payload y))
                       i x Hi).
        cbv zeta in IH.
        replace (List.length (push (push acc (label index y)) (payload y)))
          with (List.length acc + 2) in IH
          by (unfold push; rewrite !length_app; cbn [List.length]; lia).
        replace (List.length acc + 2 * S i)
          with (List.length acc + 2 + 2 * i) by lia.
        replace (index + S i) with (S index + i) by lia.
        exact IH.
Qed.

End PairsOfParts.

Section Engineering.

Import GeminiService.

Variables (userPrompt : jsstring) (targetModel : TargetModel).
Variables (textPlates referenceImages : list ImageFile).
Variables (aspectRatio key : jsstring).

Local Abbreviation request :=
    (engineer_request userPrompt targetModel textPlates referenceImages
       aspectRatio key).

Local Abbreviation engineered :=
    (engineerPrompt userPrompt targetModel textPlates referenceImages
       aspectRatio key).

Lemma engineerPrompt_calls (env : Oracle) : calls_of engineered env = [request].
Proof.
    unfold calls_of, engineerPrompt.
    cbn [await bind]. rewrite run_Await. cbn [fst].
    destruct (env 0 request) as [e|response]; cbn; [reflexivity|].
    destruct (JSON.parse (response_text response)); reflexivity.
Qed.

Lemma engineerPrompt_outcome (env : Oracle) :
    outcome_of engineered env
    = match env 0 request with
      | inl e => inl e
      | inr response =>
          match JSON.parse (response_text response) with
          | Some parsedJson => inr parsedJson
          | None =>
              inl (JsError (invalid_response_prefix ++ response_text response))
          end
      end.
Proof.
    unfold outcome_of, engineerPrompt.
    cbn [await bind]. rewrite run_Await. cbn [snd].
    destruct (env 0 request) as [e|response]; cbn; [reflexivity|].
    destruct (JSON.parse (response_text response)); reflexivity.
Qed.

(** C5.  Whenever the text of the response to the engineering request is
    not parseable, [engineerPrompt] throws an [Error] whose message
    includes that text as it came, and it has made one request only: the
    failure is not retried. *)
Theorem engineerPrompt_unparseable (env : Oracle)
    (response : GenerateContentResponse) :
    env 0 request = inr response ->
    JSON.parse (response_text response) = None ->
    exists message,
      outcome_of engineered env = inl (JsError message)
      /\ includes message (response_text response) = true
      /\ calls_of engineered env = [request].
Proof.
    intros Hr Hp.
    exists (invalid_response_prefix ++ response_text response).
    rewrite engineerPrompt_outcome, Hr, Hp.
    split; [reflexivity|].
    split; [apply includes_suffix | apply engineerPrompt_calls].
Qed.

(** C10.  Given the response of the model, [engineerPrompt] throws if and
    only if [JSON.parse] rejects its text; any value the text parses to is
    returned as it is, whatever its shape; and there are responses for
    which the value returned lacks the fields of the schema. *)
Theorem engineerPrompt_throws_iff_unparseable :
    (forall (env : Oracle) (response : GenerateContentResponse),
        env 0 request = inr response ->
        ((exists e, outcome_of engineered env = inl e)
         <-> JSON.parse (response_text response) = None)
        /\ (forall v, JSON.parse (response_text response) = Some v ->
                      outcome_of engineered env = inr v))
    /\ (exists (env : Oracle) (v : EngineeredPrompt),
           outcome_of engineered env = inr v
           /\ Engineered.conforms v = false).
Proof.
    split.
    - intros env response Hr. rewrite engineerPrompt_outcome, Hr.
      destruct (JSON.parse (response_text response)) as [v|]; split.
      + split; [intros [e He]; discriminate | discriminate].
      + intros v' Hv. congruence.
      + split; [reflexivity | intros _; eexists; reflexivity].
      + discriminate.
    - exists (Scenario.scripted Scenario.off_schema).
      exists (JObject [(js "professional_prompt", JNumber (js "7"))]).
      rewrite engineerPrompt_outcome. split; reflexivity.
Qed.

(** C9.  The request of [engineerPrompt] carries these parts, in this
    order: one text part with the prompt and the aspect ratio; for the
    plate at each index [i] the label numbered [i + 1] and then its image
    data; after all plates, for the reference image at each index [j] the
    label numbered [j + 1] and then its image data; last, the closing
    instruction; and nothing else. *)
Theorem engineerPrompt_parts_order :
    let sent := engineerPrompt_parts userPrompt textPlates referenceImages
                  aspectRatio in
    let p := List.length textPlates in
    let r := List.length referenceImages in
    (forall env, exists params,
        calls_of engineered env = [generateContent In_engineerPrompt key params]
        /\ parts params = sent)
    /\ List.length sent = 2 + 2 * p + 2 * r
    /\ nth_error sent 0
       = Some (text_part (js "User's simple prompt: " ++ userPrompt ++ LF
                          ++ js "Desired Aspect Ratio: " ++ aspectRatio))
    /\ (forall i plate, nth_error textPlates i = Some plate ->
          nth_error sent (1 + 2 * i) = Some (plate_label i plate)
          /\ nth_error sent (1 + 2 * i + 1) = Some (image_data plate))
    /\ (forall j image, nth_error referenceImages j = Some image ->
          nth_error sent (1 + 2 * p + 2 * j) = Some (reference_label j image)
          /\ nth_error sent (1 + 2 * p + 2 * j + 1) = Some (image_data image))
    /\ nth_error sent (1 + 2 * p + 2 * r) = Some (text_part closing_instruction).
Proof.
    cbv zeta.
    change (engineerPrompt_parts userPrompt textPlates referenceImages aspectRatio)
      with (push
              (forEach_from
                 (fun parts x i => push (push parts (reference_label i x)) (image_data x))
                 referenceImages 0
                 (forEach_from
                    (fun parts x i => push (push parts (plate_label i x)) (image_data x))
                    textPlates 0
                    [text_part (js "User's simple prompt: " ++ userPrompt ++ LF
                                ++ js "Desired Aspect Ratio: " ++ aspectRatio)]))
              (text_part closing_instruction)).
    set (header := [text_part _]).
    set (l1 := forEach_from _ textPlates 0 header).
    set (l2 := forEach_from _ referenceImages 0 l1).
    assert (H1 : List.length l1 = 1 + 2 * List.length textPlates)
      by (unfold l1; rewrite forEach_from_length; reflexivity).
    assert (H2 : List.length l2 = List.length l1 + 2 * List.length referenceImages)
      by (unfold l2; rewrite forEach_from_length; reflexivity).
    split; [|split; [|split; [|split; [|split]]]].
    - intros env. eexists. split; [apply engineerPrompt_calls|]. reflexivity.
    - unfold push. rewrite length_app. cbn [List.length]. lia.
    - unfold push. rewrite nth_error_app1 by lia.
      unfold l2. rewrite forEach_from_keeps by lia.
      unfold l1. rewrite forEach_from_keeps by (cbn [List.length header]; lia).
      reflexivity.
    - intros i plate Hi.
      assert (Hlt : i < List.length textPlates)
        by (apply nth_error_Some; congruence).
      unfold push. rewrite !nth_error_app1 by lia.
      unfold l2. rewrite !forEach_from_keeps by lia.
      exact (forEach_from_nth plate_label image_data textPlates 0 header i Hi).
    - intros j image Hj.
      assert (Hlt : j < List.length referenceImages)
        by (apply nth_error_Some; congruence).
      unfold push. rewrite !nth_error_app1 by lia.
      pose proof (forEach_from_nth reference_label image_data
                    referenceImages 0 l1 j Hj) as H.
      cbv zeta in H. rewrite H1 in H. exact H.
    - unfold push. rewrite nth_error_app2 by lia.
      replace (1 + 2 * List.length textPlates + 2 * List.length referenceImages
               - List.length l2) with 0 by lia.
      reflexivity.
Qed.

End Engineering.

(* ================================================================== *)
(** ** The image generation client *)

Section Generation.

Import GeminiService.

Variables (prompt : jsstring) (textPlates referenceImages : list ImageFile).
Variable key : jsstring.

Local Abbreviation request :=
  (image_request In_generateImage key
     (generateImage_parts prompt textPlates referenceImages)).

Local Abbreviation generated :=
  (generateImage prompt textPlates referenceImages key).

Lemma generateImage_scan_first (before after : list Part) (part : Part)
  (blob : Blob) :
  Forall (fun p => inlineData p = None) before ->
  inlineData part = Some blob ->
  generateImage_scan (before ++ part :: after) = Ret (data_url (data blob)).
Proof.
  intros Hb Hp. induction Hb as [|p before Hnone _ IH]; simpl.
  - now rewrite Hp.
  - now rewrite Hnone.
Qed.

Lemma generateImage_scan_none (parts : list Part) :
  Forall (fun p => inlineData p = None) parts ->
  generateImage_scan parts = Throw (JsError no_image_message).
Proof.
  induction 1 as [|p parts Hnone _ IH]; simpl; [reflexivity|].
  now rewrite Hnone.
Qed.

(** The loop awaits nothing, and what it returns is a data URL. *)
Lemma generateImage_scan_run (parts : list Part) (env : Oracle) (n : nat) :
  fst (run (generateImage_scan parts) env n) = []
  /\ forall url, snd (run (generateImage_scan parts) env n) = inr url ->
                 exists d, url = data_url d.
Proof.
  induction parts as [|p parts IH]; simpl.
  - split; [reflexivity | discriminate].
  - destruct (inlineData p) as [blob|]; [|exact IH].
    split; [reflexivity|]. intros url [= <-]. now exists (data blob).
Qed.

Lemma generateImage_run (env : Oracle) (n : nat) :
  fst (run generated env n) = [request]
  /\ snd (run generated env n)
     = match env n request with
       | inl e => inl e
       | inr response =>
           match response_parts response with
           | inl e => inl e
           | inr parts => snd (run (generateImage_scan parts) env (S n))
           end
       end.
Proof.
  unfold generateImage. cbn [await bind]. rewrite run_Await. cbn [fst snd].
  destruct (env n request) as [e|response]; cbn [bind].
  - split; reflexivity.
  - destruct (response_parts response) as [e|parts]; [split; reflexivity|].
    destruct (generateImage_scan_run parts env (S n)) as [-> _].
    split; reflexivity.
Qed.

(** C6.  Given the response to its request, when the parts of the first
    candidate can be read, [generateImage] returns the payload of the first
    of them that carries inline data, as a [data:image/png;base64,] URL,
    and throws the error [No image was generated by the model.] when none
    of them does.  But a response with no candidates, an empty list of
    them, a first candidate without content, or a content without parts
    carries no image either, and for it [generateImage] throws the
    [TypeError] of the read that met [undefined], which is another error
    with another message.  So it does for the response to a blocked prompt,
    which has no candidates. *)
Theorem generateImage_result :
  (forall (env : Oracle) (response : GenerateContentResponse),
      env 0 request = inr response ->
      (forall before part after blob,
          response_parts response = inr (before ++ part :: after) ->
          Forall (fun p => inlineData p = None) before ->
          inlineData part = Some blob ->
          outcome_of generated env
          = inr (js "data:image/png;base64," ++ data blob))
      /\ (forall parts,
             response_parts response = inr parts ->
             Forall (fun p => inlineData p = None) parts ->
             outcome_of generated env
             = inl (JsError (js "No image was generated by the model.")))
      /\ (forall e,
             response_parts response = inl e ->
             outcome_of generated env = inl e
             /\ e <> JsError (js "No image was generated by the model.")))
  /\ Response.candidates Cases.blocked = None
  /\ (exists message,
         outcome_of generated (Scenario.scripted Cases.image_blocked)
         = inl (JsError message)
         /\ message <> js "No image was generated by the model.").
Proof.
  split; [|split; [reflexivity|]].
  2: { eexists. split; [reflexivity|discriminate]. }
  intros env response Hr. unfold outcome_of.
  destruct (generateImage_run env 0) as [_ ->]. rewrite Hr.
  split; [|split].
  - intros before part after blob Hparts Hb Hp.
    rewrite Hparts,
      (@generateImage_scan_first before after part blob Hb Hp). reflexivity.
  - intros parts Hparts Hnone.
    rewrite Hparts, (@generateImage_scan_none _ Hnone). reflexivity.
  - intros e He. rewrite He. split; [reflexivity|].
    unfold response_parts in He.
    destruct (Response.candidates response) as [[|candidate rest]|];
      try (injection He as <-; discriminate).
    destruct (content candidate) as [c|];
      try (injection He as <-; discriminate).
    destruct (content_parts c); [discriminate|].
    injection He as <-. discriminate.
Qed.

End Generation.

(* ================================================================== *)
(** ** Sequencing: lemmas *)

Section RunCompose.

Context {A B : Type}.

Lemma run_bind (p : Prog A) (f : A -> Prog B) (env : Oracle) (n : nat) :
  run (bind p f) env n
  = match snd (run p env n) with
    | inl e => (fst (run p env n), inl e)
    | inr a =>
        (fst (run p env n)
           ++ fst (run (f a) env (n + List.length (fst (run p env n)))),
         snd (run (f a) env (n + List.length (fst (run p env n)))))
    end.
Proof.
  revert n. induction p as [a|e|c k IH]; intros n.
  - cbn. rewrite Nat.add_0_r. now destruct (run (f a) env n).
  - reflexivity.
  - cbn [bind]. rewrite !run_Await. cbn [fst snd]. rewrite IH.
    destruct (snd (run (k (env n c)) env (S n))); cbn [List.length].
    + reflexivity.
    + now rewrite Nat.add_succ_r.
Qed.

Lemma run_try_catch (p : Prog A) (h : Thrown -> Prog A) (env : Oracle) (n : nat) :
  run (try_catch p h) env n
  = match snd (run p env n) with
    | inr a => (fst (run p env n), inr a)
    | inl e =>
        (fst (run p env n)
           ++ fst (run (h e) env (n + List.length (fst (run p env n)))),
         snd (run (h e) env (n + List.length (fst (run p env n)))))
    end.
Proof.
  revert n. induction p as [a|e|c k IH]; intros n.
  - reflexivity.
  - cbn. rewrite Nat.add_0_r. now destruct (run (h e) env n).
  - cbn [try_catch]. rewrite !run_Await. cbn [fst snd]. rewrite IH.
    destruct (snd (run (k (env n c)) env (S n))); cbn [List.length].
    + now rewrite Nat.add_succ_r.
    + reflexivity.
Qed.

End RunCompose.

Section ServicesAnywhere.

Import GeminiService.

Variables (env : Oracle) (n : nat).

Lemma addQuotesToPrompt_run (userPrompt key : jsstring) :
  run (addQuotesToPrompt userPrompt key) env n
  = if truthy (trim userPrompt)
    then ([quote_request userPrompt key],
          inr match env n (quote_request userPrompt key) with
              | inl _ => userPrompt
              | inr response =>
                  match Response.text response with
                  | None => userPrompt
                  | Some text => or_else (trim text) userPrompt
                  end
              end)
    else ([], inr userPrompt).
Proof.
  unfold addQuotesToPrompt. destruct (truthy (trim userPrompt)); cbn [negb].
  - cbn [await bind try_catch]. rewrite run_Await.
    destruct (env n (quote_request userPrompt key)) as [e|response];
      [reflexivity|].
    cbn [bind try_catch]. now destruct (Response.text response).
  - reflexivity.
Qed.

Lemma engineerPrompt_run (userPrompt : jsstring) (targetModel : TargetModel)
  (textPlates referenceImages : list ImageFile) (aspectRatio key : jsstring) :
  fst (run (engineerPrompt userPrompt targetModel textPlates referenceImages
              aspectRatio key) env n)
  = [engineer_request userPrompt targetModel textPlates referenceImages
       aspectRatio key].
Proof.
  unfold engineerPrompt. cbn [await bind]. rewrite run_Await. cbn [fst].
  destruct (env n _) as [e|response]; cbn; [reflexivity|].
  now destruct (JSON.parse (response_text response)).
Qed.

Lemma promptToUse_run (Number_toString : jsstring -> jsstring)
  (engineeredPrompt : EngineeredPrompt) :
  fst (run (Engineered.promptToUse Number_toString engineeredPrompt) env n) = [].
Proof.
  unfold Engineered.promptToUse.
  repeat match goal with
         | |- context [match ?x with inl _ => _ | inr _ => _ end] => destruct x
         end; reflexivity.
Qed.

End ServicesAnywhere.

(* ================================================================== *)
(** ** The orchestrator *)

Section Orchestrator.

Import GeminiService App.

Variable AspectRatio_value : AspectRatio -> jsstring.
Variable Number_toString : jsstring -> jsstring.

Local Abbreviation handleGenerate :=
  (App.handleGenerate AspectRatio_value Number_toString).
Local Abbreviation first_config :=
  (App.first_config AspectRatio_value Number_toString).
Local Abbreviation reachable :=
  (App.reachable AspectRatio_value Number_toString).
Local Abbreviation config_prog :=
  (App.config_prog AspectRatio_value Number_toString).

Lemma truthy_opt_key (k : option jsstring) :
  truthy_opt k = true -> exists c key, k = Some (c :: key).
Proof.
  destruct k as [[|c key]|]; simpl; try discriminate. intros _. now exists c, key.
Qed.

(** Without a key, [handleGenerate] asks for one and does nothing else. *)
Lemma handleGenerate_no_key (retryConfig : option GenerationConfig.t)
  (st : State) :
  truthy_opt (apiKey st) = false ->
  handleGenerate retryConfig st
  = Ret (setApiKeyError
           (Some (js "An API key is required to generate images."))
           (setIsApiKeyModalOpen true st)).
Proof.
  unfold App.handleGenerate. now destruct (apiKey st) as [[|c key]|].
Qed.

(** With a key and a blank prompt, a first generation is refused. *)
Lemma handleGenerate_blank (st : State) :
  truthy_opt (apiKey st) = true ->
  truthy (trim (userPrompt st)) = false ->
  handleGenerate None st
  = Ret (handleError (js "Please enter a prompt to generate.") None ERROR st).
Proof.
  intros Hk Hb. apply truthy_opt_key in Hk as (c & key & Hk).
  unfold App.handleGenerate. rewrite Hk. cbn [negb andb]. now rewrite Hb.
Qed.

(** Past its guards, [handleGenerate] computes the configuration, runs
    [generateImage] with it when there is one, and settles. *)
Lemma handleGenerate_started (retryConfig : option GenerationConfig.t)
  (st : State) (key : jsstring) (env : Oracle) :
  apiKey st = Some key ->
  truthy key = true ->
  passes_guards retryConfig st = true ->
  let r1 := run (config_prog retryConfig key st) env 0 in
  match snd r1 with
  | inl e =>
      run (handleGenerate retryConfig st) env 0
      = (fst r1, inr (settle st (inl e) (inl e)))
  | inr cfg =>
      let r2 := run (generateImage (GenerationConfig.prompt cfg)
                       (GenerationConfig.textPlates cfg)
                       (GenerationConfig.referenceImages cfg) key)
                  env (List.length (fst r1)) in
      run (handleGenerate retryConfig st) env 0
      = (fst r1 ++ fst r2, inr (settle st (inr cfg) (snd r2)))
  end.
Proof.
  intros Hk Hkey Hg. cbv zeta.
  unfold passes_guards in Hg. rewrite Hk in Hg. cbn [truthy_opt] in Hg.
  rewrite Hkey in Hg. cbn [andb] in Hg.
  unfold App.handleGenerate. rewrite Hk.
  destruct key as [|c key]; [discriminate|].
  destruct retryConfig as [retryConfig|]; cbv zeta; cbn [negb andb orb] in *.
  - cbn [App.config_prog run snd fst bind List.length app].
    rewrite run_try_catch, run_try_catch, run_bind.
    destruct (snd (run (generateImage _ _ _ _) env _)) as [e|url];
      cbn [snd fst run settle]; now rewrite ?app_nil_r.
  - rewrite Hg. cbn [negb]. rewrite run_try_catch, run_bind.
    cbn [App.config_prog].
    destruct (snd (run (App.first_config _ _ _ _ _) env 0)) as [e|cfg].
    + cbn [snd fst run]. now rewrite app_nil_r.
    + cbn [snd fst]. rewrite run_try_catch, run_bind. cbn [Nat.add].
      destruct (snd (run (generateImage _ _ _ _) env _)) as [e|url];
        cbn [snd fst run]; now rewrite ?app_nil_r.
Qed.

(** *** The error handler *)

Lemma truthy_message (message details : jsstring) :
  truthy (message ++ js ": " ++ details) = true.
Proof. destruct message; reflexivity. Qed.

Lemma handleError_appState (message : jsstring) (error : option Thrown)
  (st : State) :
  appState (handleError message error ERROR st) = IDLE
  \/ appState (handleError message error ERROR st) = ERROR.
Proof.
  unfold handleError. destruct (is_api_key_error _); [left | right]; reflexivity.
Qed.

(** C7.  What the [catch] clause passes to [handleError] is classified by
    the two substrings the handler looks for in the details of the error.
    When one of them occurs, the stored key and the key in memory are
    cleared, the credential prompt is opened with a notice, and the state
    goes to [IDLE], with no error message set; otherwise the one error
    message is set, made of the handler's label and the details, the state
    goes to [ERROR], and the key and the prompt stay as they were. *)
Theorem handleError_classifies (error : Thrown) (st : State) :
  let details := errorDetails_of (Some error) in
  let st' := handleError (js "Generation failed") (Some error) ERROR st in
  (includes details (js "API key not valid") = true
   \/ includes details (js "API_KEY_INVALID") = true ->
   localStorage st' = None /\ apiKey st' = None
   /\ isApiKeyModalOpen st' = true /\ apiKeyError st' = Some invalid_key_notice
   /\ appState st' = IDLE /\ errorMessage st' = errorMessage st)
  /\ (includes details (js "API key not valid") = false
      /\ includes details (js "API_KEY_INVALID") = false ->
      errorMessage st' = Some (js "Generation failed: " ++ details)
      /\ appState st' = ERROR
      /\ apiKey st' = apiKey st /\ localStorage st' = localStorage st
      /\ isApiKeyModalOpen st' = isApiKeyModalOpen st).
Proof.
  cbv zeta. unfold handleError, is_api_key_error. split.
  - intros H. apply orb_true_iff in H. rewrite H. repeat split.
  - intros [H1 H2]. rewrite H1, H2. repeat split.
Qed.

(** No failure of a component leaves [handleGenerate] as an exception:
    whatever the environment, the handler returns a state. *)
Lemma handleGenerate_never_throws (retryConfig : option GenerationConfig.t)
  (st : State) (env : Oracle) :
  exists st', outcome_of (handleGenerate retryConfig st) env = inr st'.
Proof.
  unfold outcome_of, App.handleGenerate.
  destruct (apiKey st) as [[|c key]|]; try (eexists; reflexivity).
  cbv zeta. destruct (_ && _); [eexists; reflexivity|].
  apply try_catch_returns
    with (h := fun e => handleError (js "Generation failed") (Some e) ERROR
                          (begin_loading st)).
Qed.

(** *** The stages of a generation *)

Lemma first_config_stages (currentPrompt key : jsstring) (st : State)
  (env : Oracle) :
  truthy (trim currentPrompt) = true ->
  let r := run (first_config currentPrompt key st) env 0 in
  (map stage_of (fst r) = [Quoting; PlateRendering] /\ exists e, snd r = inl e)
  \/ map stage_of (fst r) = [Quoting; PlateRendering; Engineering].
Proof.
  intros Hp. cbv zeta. unfold App.first_config.
  rewrite run_bind, addQuotesToPrompt_run, Hp. cbn [fst snd List.length Nat.add].
  set (quoted := match env 0 _ with inl _ => _ | inr _ => _ end).
  cbn [await bind]. rewrite run_Await.
  destruct (env 1 (extractTextAndGeneratePlates quoted)) as [e|plates];
    cbn [bind run fst snd].
  - left. split; [reflexivity | now exists e].
  - rewrite run_bind, engineerPrompt_run.
    destruct (snd (run (engineerPrompt _ _ _ _ _ _) env 2)) as [e|v];
      cbn [fst snd List.length Nat.add app map stage_of engineer_request
           quote_request].
    + now right.
    + rewrite run_bind, promptToUse_run.
      destruct (snd (run (Engineered.promptToUse _ _) env 3));
        cbn [fst snd app map run]; now right.
Qed.

Lemma firstn_stages (l : list Stage) :
  l = [] \/ l = [Quoting; PlateRendering]
  \/ l = [Quoting; PlateRendering; Engineering]
  \/ l = [Quoting; PlateRendering; Engineering; ImageGeneration] ->
  exists k, l = firstn k [Quoting; PlateRendering; Engineering; ImageGeneration].
Proof.
  intros [-> | [-> | [-> | -> ]]];
    [now exists 0 | now exists 2 | now exists 3 | now exists 4].
Qed.

Lemma first_generation_stages (st : State) (env : Oracle) :
  exists k,
    stages_of (handleGenerate None st) env
    = firstn k [Quoting; PlateRendering; Engineering; ImageGeneration].
Proof.
  apply firstn_stages. unfold stages_of, calls_of.
  destruct (truthy_opt (apiKey st)) eqn:Hk.
  - destruct (truthy (trim (userPrompt st))) eqn:Hp.
    + destruct (truthy_opt_key _ Hk) as (c & key & Hkey).
      assert (Hg : passes_guards None st = true)
        by (unfold passes_guards; now rewrite Hk, Hp).
      pose proof (@handleGenerate_started None st (c :: key) env Hkey
                    eq_refl Hg) as H.
      cbv zeta in H. cbn [App.config_prog] in H.
      pose proof (@first_config_stages (userPrompt st) (c :: key)
                    (begin_loading st) env Hp) as Hs.
      cbv zeta in Hs.
      destruct (snd (run (App.first_config _ _ _ _ _) env 0)) as [e|cfg].
      * rewrite H. cbn [fst]. destruct Hs as [[-> _]| ->]; auto.
      * rewrite H. cbn [fst]. rewrite map_app.
        destruct (generateImage_run (GenerationConfig.prompt cfg)
                    (GenerationConfig.textPlates cfg)
                    (GenerationConfig.referenceImages cfg) (c :: key) env
                    (List.length (fst (run (App.first_config AspectRatio_value
                       Number_toString (userPrompt st) (c :: key)
                       (begin_loading st)) env 0)))) as [-> _].
        destruct Hs as [[_ [e He]]| ->]; [discriminate|].
        right; right; right. reflexivity.
    + rewrite (handleGenerate_blank _ Hk Hp). now left.
  - rewrite (handleGenerate_no_key _ _ Hk). now left.
Qed.

(** C1.  What a first generation runs, stage by stage, is an initial
    segment of quoting, plate rendering, engineering, image generation, for
    every state and every environment: no request of the grounding client
    is among its calls.  So it is for the landmark scenario, where the
    engineered prompt carries a [grounding_search_query] that is not null:
    the four stages run, the generation succeeds, and the image request
    carries the prompt alone, no grounding image. *)
Theorem first_generation_never_grounds :
  (forall (st : State) (env : Oracle),
      (exists k,
          stages_of (handleGenerate None st) env
          = firstn k [Quoting; PlateRendering; Engineering; ImageGeneration])
      /\ ~ In Grounding (stages_of (handleGenerate None st) env))
  /\ (let st := Scenario.ready (js "a photo of the Azadi Tower at sunset") in
      let env := Scenario.scripted Scenario.azadi_tower in
      (exists response engineeredPrompt,
          Scenario.engineering Scenario.azadi_tower = inr response
          /\ JSON.parse (response_text response) = Some engineeredPrompt
          /\ Engineered.has_grounding_query engineeredPrompt = true)
      /\ stages_of (handleGenerate None st) env
         = [Quoting; PlateRendering; Engineering; ImageGeneration]
      /\ (exists st', outcome_of (handleGenerate None st) env = inr st'
                      /\ appState st' = SUCCESS)
      /\ (exists prompt,
             nth_error (calls_of (handleGenerate None st) env) 3
             = Some (image_request In_generateImage (js "key")
                       [text_part prompt]))).
Proof.
  split.
  - intros st env. destruct (first_generation_stages st env) as [k Hk].
    split; [now exists k|]. rewrite Hk. intros Hin.
    destruct k as [|[|[|[|k]]]]; simpl in Hin; rewrite ?firstn_nil in Hin;
      repeat (destruct Hin as [Hin|Hin]; [discriminate|]); exact Hin.
  - cbv zeta. split; [|split; [|split]].
    + eexists. eexists. split; [reflexivity|]. split; vm_compute; reflexivity.
    + vm_compute. reflexivity.
    + eexists. split; vm_compute; reflexivity.
    + eexists. vm_compute. reflexivity.
Qed.

(** *** Retry *)

Lemma handleError_lastConfig (message : jsstring) (error : option Thrown)
  (st : State) :
  lastConfig (handleError message error ERROR st) = lastConfig st.
Proof. unfold handleError. now destruct (is_api_key_error _). Qed.

Lemma settle_lastConfig (st : State) (cfg : GenerationConfig.t)
  (image : Thrown + jsstring) :
  lastConfig (settle st (inr cfg) image) = Some cfg.
Proof.
  destruct image as [e|url]; cbn [settle].
  - now rewrite handleError_lastConfig.
  - reflexivity.
Qed.

(** C2.  Let a first generation, started with the Generate button, end in
    [SUCCESS].  Then a configuration is kept, whose prompt, plates and
    reference images are those of the image request that ended the run;
    and the retry, which is [handleGenerate] on the kept configuration,
    makes that one request again and no other call (no quoting, no
    engineering), whatever the environment answers; it leaves the kept
    configuration as it was. *)
Theorem retry_reuses_config (st st1 : State) (env1 env2 : Oracle) :
  generate_enabled st = true ->
  outcome_of (handleGenerate None st) env1 = inr st1 ->
  appState st1 = SUCCESS ->
  exists key cfg before,
    lastConfig st1 = Some cfg
    /\ calls_of (handleGenerate None st) env1
       = before ++ [image_request In_generateImage key
                      (generateImage_parts (GenerationConfig.prompt cfg)
                         (GenerationConfig.textPlates cfg)
                         (GenerationConfig.referenceImages cfg))]
    /\ calls_of (handleGenerate (lastConfig st1) st1) env2
       = [image_request In_generateImage key
            (generateImage_parts (GenerationConfig.prompt cfg)
               (GenerationConfig.textPlates cfg)
               (GenerationConfig.referenceImages cfg))]
    /\ stages_of (handleGenerate (lastConfig st1) st1) env2 = [ImageGeneration]
    /\ (forall st2,
           outcome_of (handleGenerate (lastConfig st1) st1) env2 = inr st2 ->
           lastConfig st2 = Some cfg).
Proof.
  intros Hen Hout Hs. unfold outcome_of, calls_of, stages_of, calls_of in *.
  assert (Hform : appState st <> SUCCESS).
  { unfold generate_enabled, shows_form, isLoading in Hen. intros E.
    rewrite E in Hen. discriminate Hen. }
  destruct (truthy_opt (apiKey st)) eqn:Hk.
  2:{ rewrite (handleGenerate_no_key _ _ Hk) in Hout. cbn [run snd] in Hout.
      injection Hout as <-. destruct (Hform Hs). }
  destruct (truthy (trim (userPrompt st))) eqn:Hp.
  2:{ rewrite (handleGenerate_blank _ Hk Hp) in Hout. cbn [run snd] in Hout.
      injection Hout as <-.
      destruct (handleError_appState (js "Please enter a prompt to generate.")
                  None st) as [E|E]; rewrite E in Hs; discriminate. }
  destruct (truthy_opt_key _ Hk) as (c & key & Hkey).
  assert (Hg : passes_guards None st = true)
    by (unfold passes_guards; now rewrite Hk, Hp).
  pose proof (@handleGenerate_started None st (c :: key) env1 Hkey eq_refl Hg)
    as H.
  cbv zeta in H.
  destruct (snd (run (config_prog None (c :: key) st) env1 0)) as [e|cfg].
  { rewrite H in Hout. cbn [snd settle] in Hout. injection Hout as <-.
    destruct (handleError_appState (js "Generation failed") (Some e)
                (begin_loading st)) as [E|E]; rewrite E in Hs; discriminate. }
  rewrite H in Hout |- *. cbn [snd fst] in Hout |- *.
  destruct (generateImage_run (GenerationConfig.prompt cfg)
              (GenerationConfig.textPlates cfg)
              (GenerationConfig.referenceImages cfg) (c :: key) env1
              (List.length (fst (run (config_prog None (c :: key) st) env1 0))))
    as [Hcalls _].
  rewrite Hcalls. clear H Hcalls.
  destruct (snd (run (generateImage _ _ _ _) env1 _)) as [e|url].
  { cbn [settle] in Hout. injection Hout as <-.
    destruct (handleError_appState (js "Generation failed") (Some e)
                (setLastConfig (Some cfg) (begin_loading st))) as [E|E];
      rewrite E in Hs; discriminate. }
  cbn [settle] in Hout. injection Hout as <-. clear Hs.
  exists (c :: key), cfg, (fst (run (config_prog None (c :: key) st) env1 0)).
  cbn [lastConfig setAppState setResultUrl setLastConfig].
  split; [reflexivity|]. split; [reflexivity|].
  set (st1 := setAppState SUCCESS _).
  assert (Hkey1 : apiKey st1 = Some (c :: key)) by exact Hkey.
  assert (Hg1 : passes_guards (Some cfg) st1 = true)
    by (unfold passes_guards; now rewrite Hkey1).
  pose proof (@handleGenerate_started (Some cfg) st1 (c :: key) env2 Hkey1
                eq_refl Hg1) as H.
  cbv zeta in H.
  change (config_prog (Some cfg) (c :: key) st1) with (Ret cfg) in H.
  change (run (Ret cfg) env2 0) with (@nil Call, @inr Thrown _ cfg) in H.
  cbn [snd fst List.length app] in H.
  destruct (generateImage_run (GenerationConfig.prompt cfg)
              (GenerationConfig.textPlates cfg)
              (GenerationConfig.referenceImages cfg) (c :: key) env2 0)
    as [Hcalls _].
  rewrite H, Hcalls. cbn [fst snd]. split; [reflexivity|].
  split; [reflexivity|].
  intros st2 Heq.
  assert (E : settle st1 (inr cfg)
                (snd (run (generateImage (GenerationConfig.prompt cfg)
                             (GenerationConfig.textPlates cfg)
                             (GenerationConfig.referenceImages cfg) (c :: key))
                        env2 0)) = st2) by congruence.
  rewrite <- E. apply settle_lastConfig.
Qed.

(** *** What is on screen *)

Ltac close_fields :=
  repeat split; intros; first [congruence | solve [auto] | intuition congruence].

Ltac invariant_fields :=
  unfold invariant, handleError, begin_loading, handleStartOver,
    handleSaveApiKey, mount, initial;
  cbn [appState errorMessage apiKey isApiKeyModalOpen resultUrl
       setAppState setErrorMessage setApiKey setIsApiKeyModalOpen
       setApiKeyError setUserPrompt setReferenceImages setAspectRatio
       setResultUrl setLastConfig setStorage truthy_opt].

Lemma invariant_handleError (message : jsstring) (error : option Thrown)
  (st : State) :
  truthy_opt (apiKey st) = true ->
  (isApiKeyModalOpen st = true -> truthy_opt (apiKey st) = false) ->
  invariant (handleError message error ERROR st).
Proof.
  intros Hk Hm. invariant_fields.
  destruct (is_api_key_error _); invariant_fields.
  - close_fields.
  - rewrite truthy_message. close_fields.
Qed.

Lemma invariant_settle (st : State) (config : Thrown + GenerationConfig.t)
  (image : Thrown + jsstring) :
  invariant st ->
  truthy_opt (apiKey st) = true ->
  (forall url, image = inr url -> truthy url = true) ->
  invariant (settle st config image).
Proof.
  intros (Hm & _) Hk Hurl.
  destruct config as [e|cfg]; cbn [settle].
  - apply invariant_handleError; assumption.
  - destruct image as [e|url].
    + apply invariant_handleError; assumption.
    + invariant_fields. rewrite (Hurl url eq_refl).
      close_fields.
Qed.

Lemma generateImage_url_truthy (prompt : jsstring)
  (textPlates referenceImages : list ImageFile) (key : jsstring)
  (env : Oracle) (n : nat) (url : jsstring) :
  snd (run (generateImage prompt textPlates referenceImages key) env n) = inr url ->
  truthy url = true.
Proof.
  destruct (generateImage_run prompt textPlates referenceImages key env n)
    as [_ ->].
  destruct (env n _) as [e|response]; [discriminate|].
  destruct (response_parts response) as [e|parts]; [discriminate|].
  intros H.
  destruct (generateImage_scan_run parts env (S n)) as [_ Hd].
  destruct (Hd url H) as [d ->]. reflexivity.
Qed.

Lemma invariant_handleGenerate (retryConfig : option GenerationConfig.t)
  (st st' : State) (env : Oracle) :
  invariant st ->
  outcome_of (handleGenerate retryConfig st) env = inr st' ->
  invariant st'.
Proof.
  intros Hinv Hout. unfold outcome_of in Hout.
  destruct (truthy_opt (apiKey st)) eqn:Hk.
  - destruct (passes_guards retryConfig st) eqn:Hg.
    + destruct (truthy_opt_key _ Hk) as (c & key & Hkey).
      pose proof (@handleGenerate_started retryConfig st (c :: key) env Hkey
                    eq_refl Hg) as H.
      cbv zeta in H.
      destruct (snd (run (config_prog retryConfig (c :: key) st) env 0))
        as [e|cfg]; rewrite H in Hout;
        match type of Hout with
        | snd (_, inr ?s) = _ =>
            assert (E : s = st')
              by (change (@inr Thrown State s = inr st') in Hout; congruence)
        end; rewrite <- E; apply invariant_settle; auto.
      * discriminate.
      * intros url. apply generateImage_url_truthy.
    + unfold passes_guards in Hg. rewrite Hk in Hg. cbn [andb] in Hg.
      destruct retryConfig as [cfg|]; [discriminate|]. cbn [orb] in Hg.
      rewrite (handleGenerate_blank _ Hk Hg) in Hout. cbn [run snd] in Hout.
      injection Hout as <-. destruct Hinv as (Hm & _).
      apply invariant_handleError; assumption.
  - rewrite (handleGenerate_no_key _ _ Hk) in Hout. cbn [run snd] in Hout.
    injection Hout as <-. destruct Hinv as (Hm & Hidle & _).
    specialize (Hidle Hk). revert Hidle Hk. invariant_fields.
    intros Hidle Hk. close_fields.
Qed.

Lemma invariant_step (st st' : State) :
  invariant st -> App.step AspectRatio_value Number_toString st st' ->
  invariant st'.
Proof.
  intros Hinv Hstep.
  destruct Hstep as [st k Hm | st v Hf | st r Hf | st l Hf
                    | st Hen Hg | st env st' Hen Hout
                    | st Hs Hg | st env st' Hs Hout | st Hv].
  - destruct Hinv as (H1 & H2 & _). unfold shows_credential_prompt in Hm.
    specialize (H2 (H1 Hm)). revert H2. invariant_fields.
    intros H2. close_fields.
  - exact Hinv.
  - exact Hinv.
  - exact Hinv.
  - unfold passes_guards in Hg. apply andb_true_iff in Hg as [Hk _].
    destruct Hinv as (H1 & _). revert H1 Hk. invariant_fields.
    intros H1 Hk. close_fields.
  - exact (invariant_handleGenerate _ _ Hinv Hout).
  - unfold passes_guards in Hg. apply andb_true_iff in Hg as [Hk _].
    destruct Hinv as (H1 & _). revert H1 Hk. invariant_fields.
    intros H1 Hk. close_fields.
  - exact (invariant_handleGenerate _ _ Hinv Hout).
  - destruct Hinv as (H1 & H2 & _). revert H1 H2. invariant_fields.
    intros H1 H2. close_fields.
Qed.

Lemma reachable_invariant (st : State) : reachable st -> invariant st.
Proof.
  induction 1 as [stored | stored | st st' _ IH Hstep].
  - invariant_fields. close_fields.
  - invariant_fields. cbn [localStorage].
    destruct (truthy_opt stored) eqn:Hs; invariant_fields;
      close_fields.
  - exact (invariant_step IH Hstep).
Qed.

(** C8, as the code has it.  In every reachable state at most one of the
    loading indicator, the success view, the error view and the credential
    prompt is rendered; none of them is rendered exactly when the state is
    [IDLE] with the credential prompt closed, where the generation form
    alone is on screen. *)
Theorem views_at_most_one (st : State) :
  reachable st ->
  views_shown st <= 1
  /\ (views_shown st = 0
      <-> appState st = IDLE /\ isApiKeyModalOpen st = false)
  /\ (views_shown st = 0 -> shows_form st = true).
Proof.
  intros Hr. destruct (reachable_invariant Hr) as (H1 & H2 & H3 & H4).
  unfold views_shown, shows_loading, shows_success, shows_error,
    shows_credential_prompt, shows_form, isLoading.
  destruct (appState st) eqn:Hs; cbn [AppState_eqb andb negb].
  - destruct (isApiKeyModalOpen st); cbn; repeat split; intros;
      try lia; try congruence; intuition congruence.
  - destruct (isApiKeyModalOpen st) eqn:Hm.
    + specialize (H2 (H1 eq_refl)). discriminate.
    + cbn. repeat split; intros; try lia; intuition congruence.
  - rewrite (H3 eq_refl). destruct (isApiKeyModalOpen st) eqn:Hm.
    + specialize (H2 (H1 eq_refl)). discriminate.
    + cbn. repeat split; intros; try lia; intuition congruence.
  - rewrite (H4 eq_refl). destruct (isApiKeyModalOpen st) eqn:Hm.
    + specialize (H2 (H1 eq_refl)). discriminate.
    + cbn. repeat split; intros; try lia; intuition congruence.
Qed.

End Orchestrator.

(* ================================================================== *)
(** ** The theorems at work *)

Section Instances.

Import GeminiService App Scenario.

Local Abbreviation handleGenerate := (App.handleGenerate ratio as_written).
Local Abbreviation reachable := (App.reachable ratio as_written).

(** A prompt of two spaces and a tab is returned without a call. *)
Lemma addQuotesToPrompt_blank_witness :
  addQuotesToPrompt [32; 32; 9]%N (js "key") = Ret [32; 32; 9]%N
  /\ calls_of (addQuotesToPrompt [32; 32; 9]%N (js "key")) (scripted offline) = []
  /\ outcome_of (addQuotesToPrompt [32; 32; 9]%N (js "key")) (scripted offline)
     = inr [32; 32; 9]%N.
Proof.
  apply (@addQuotesToPrompt_blank [32; 32; 9]%N (js "key") (scripted offline)).
  repeat constructor.
Defined.

(** Offline, and with a model that answers nothing, the prompt comes back
    as it was. *)
Lemma addQuotesToPrompt_never_throws_witness :
  outcome_of (addQuotesToPrompt (js "A red stop sign.") (js "key"))
    (scripted offline) = inr (js "A red stop sign.")
  /\ outcome_of (addQuotesToPrompt (js "A red stop sign.") (js "key"))
       (scripted chatty) = inr (js "A red stop sign.").
Proof.
  split.
  - refine (proj1 (proj2 (@addQuotesToPrompt_never_throws
              (js "A red stop sign.") (js "key") (scripted offline) _))
              (JsError (js "Failed to fetch")) eq_refl).
    discriminate.
  - refine (proj2 (proj2 (@addQuotesToPrompt_never_throws
              (js "A red stop sign.") (js "key") (scripted chatty) _))
              (answer [] [text_part []]) eq_refl eq_refl).
    discriminate.
Defined.

(** Prose instead of JSON: the error quotes it. *)
Lemma engineerPrompt_unparseable_witness :
  exists message,
    outcome_of (engineerPrompt (js "x") IMAGE [] [] (js "1:1") (js "key"))
      (scripted chatty) = inl (JsError message)
    /\ includes message (js "Sure! Here is your prompt.") = true
    /\ calls_of (engineerPrompt (js "x") IMAGE [] [] (js "1:1") (js "key"))
         (scripted chatty)
       = [engineer_request (js "x") IMAGE [] [] (js "1:1") (js "key")].
Proof.
  apply (@engineerPrompt_unparseable (js "x") IMAGE [] [] (js "1:1") (js "key")
           (scripted chatty)
           (answer (js "Sure! Here is your prompt.")
              [text_part (js "Sure! Here is your prompt.")])).
  - reflexivity.
  - vm_compute. reflexivity.
Defined.

(** A number where the prompt should be is returned all the same. *)
Lemma engineerPrompt_throws_iff_unparseable_witness :
  outcome_of (engineerPrompt (js "x") IMAGE [] [] (js "1:1") (js "key"))
    (scripted off_schema)
  = inr (JObject [(js "professional_prompt", JNumber (js "7"))]).
Proof.
  refine (proj2 (proj1 (@engineerPrompt_throws_iff_unparseable
            (js "x") IMAGE [] [] (js "1:1") (js "key"))
            (scripted off_schema)
            (answer (jsq "{`professional_prompt`: 7}")
               [text_part (jsq "{`professional_prompt`: 7}")])
            eq_refl) _ _).
  vm_compute. reflexivity.
Defined.

(** Two plates and one upload: the sixth part is the label of the upload. *)
Lemma engineerPrompt_parts_order_witness :
  nth_error (engineerPrompt_parts (js "x") [plate 1; plate 2] [upload] (js "1:1")) 5
  = Some (text_part (js "User Reference Image 1 (tower.jpg):")).
Proof.
  exact (proj1 (proj1 (proj2 (proj2 (proj2 (proj2
           (@engineerPrompt_parts_order (js "x") IMAGE [plate 1; plate 2]
              [upload] (js "1:1") (js "key")))))) 0 upload eq_refl)).
Defined.

(** A text part, then two images: the first image is the result.  Text
    only: no image.  No candidates at all: the read of the first one fails. *)
Lemma generateImage_result_witness :
  outcome_of (generateImage (js "p") [plate 1] [upload] (js "key"))
    (scripted stop_sign) = inr (js "data:image/png;base64,aW1hZ2U=")
  /\ outcome_of (generateImage (js "p") [plate 1] [upload] (js "key"))
       (scripted chatty)
     = inl (JsError (js "No image was generated by the model."))
  /\ outcome_of (generateImage (js "p") [plate 1] [upload] (js "key"))
       (scripted Cases.image_blocked)
     <> inl (JsError (js "No image was generated by the model.")).
Proof.
  pose proof (proj1 (@generateImage_result (js "p") [plate 1] [upload]
                (js "key"))) as H.
  split; [|split].
  - refine (proj1 (H (scripted stop_sign)
              (answer []
                 [text_part (js "Here is your image.");
                  inlineData_part (js "image/png") (js "aW1hZ2U=");
                  inlineData_part (js "image/png") (js "second")]) eq_refl)
              [text_part (js "Here is your image.")]
              (inlineData_part (js "image/png") (js "aW1hZ2U="))
              [inlineData_part (js "image/png") (js "second")]
              {| mimeType := js "image/png"; data := js "aW1hZ2U=" |}
              eq_refl _ eq_refl).
    repeat constructor.
  - refine (proj1 (proj2 (H (scripted chatty)
              (answer (js "I cannot draw that.")
                 [text_part (js "I cannot draw that.")]) eq_refl))
              [text_part (js "I cannot draw that.")] eq_refl _).
    repeat constructor.
  - rewrite (proj1 (proj2 (proj2 (H (scripted Cases.image_blocked)
               Cases.blocked eq_refl)) _ eq_refl)).
    discriminate.
Defined.

(** A rejected key reopens the prompt from [IDLE]; an exhausted quota shows
    the error. *)
Lemma handleError_classifies_witness :
  (apiKey (handleError (js "Generation failed") (Some key_rejected) ERROR
             (begin_loading mounted)) = None
   /\ appState (handleError (js "Generation failed") (Some key_rejected) ERROR
                  (begin_loading mounted)) = IDLE)
  /\ (errorMessage (handleError (js "Generation failed") (Some quota_exceeded)
                      ERROR (begin_loading mounted))
      = Some (js "Generation failed: [429] Resource has been exhausted.")
      /\ appState (handleError (js "Generation failed") (Some quota_exceeded)
                     ERROR (begin_loading mounted)) = ERROR).
Proof.
  split.
  - pose proof (proj1 (@handleError_classifies key_rejected
                         (begin_loading mounted))
                  (or_introl eq_refl)) as H.
    split; [exact (proj1 (proj2 H)) | exact (proj1 (proj2 (proj2 (proj2 (proj2 H)))))].
  - pose proof (proj2 (@handleError_classifies quota_exceeded
                         (begin_loading mounted))
                  (conj eq_refl eq_refl)) as H.
    split; [exact (proj1 H) | exact (proj1 (proj2 H))].
Defined.

Lemma reachable_stop_sign_done : reachable stop_sign_done.
Proof.
  apply reachable_step with (st := ready (js "A stop sign at an intersection")).
  - apply reachable_step with (st := mounted).
    + apply reachable_mounted.
    + apply step_type_prompt. reflexivity.
  - apply step_generate_settles with (env := scripted stop_sign).
    + reflexivity.
    + vm_compute. reflexivity.
Defined.

(** After the stop-sign generation the success view is the one view. *)
Lemma views_at_most_one_witness :
  views_shown stop_sign_done <= 1
  /\ (views_shown stop_sign_done = 0
      <-> appState stop_sign_done = IDLE
          /\ isApiKeyModalOpen stop_sign_done = false)
  /\ (views_shown stop_sign_done = 0 -> shows_form stop_sign_done = true).
Proof.
  exact (@views_at_most_one ratio as_written stop_sign_done
           reachable_stop_sign_done).
Defined.

(** C8, as it is written, fails: mounted over a stored key, the component
    is in a reachable state where it renders the generation form and none
    of the four views. *)
Lemma views_exactly_one_fails :
  reachable mounted
  /\ views_shown mounted = 0
  /\ ~ (forall st, reachable st -> views_shown st = 1).
Proof.
  split; [apply reachable_mounted|]. split; [reflexivity|].
  intros H. specialize (H mounted (reachable_mounted _ _ _)). discriminate H.
Qed.

(** The retry of the stop-sign generation, offline: the one request of the
    original run again. *)
Lemma retry_reuses_config_witness :
  exists key cfg before,
    lastConfig stop_sign_done = Some cfg
    /\ calls_of (handleGenerate None (ready (js "A stop sign at an intersection")))
         (scripted stop_sign)
       = before ++ [image_request In_generateImage key
                      (generateImage_parts (GenerationConfig.prompt cfg)
                         (GenerationConfig.textPlates cfg)
                         (GenerationConfig.referenceImages cfg))]
    /\ calls_of (handleGenerate (lastConfig stop_sign_done) stop_sign_done)
         (scripted offline)
       = [image_request In_generateImage key
            (generateImage_parts (GenerationConfig.prompt cfg)
               (GenerationConfig.textPlates cfg)
               (GenerationConfig.referenceImages cfg))]
    /\ stages_of (handleGenerate (lastConfig stop_sign_done) stop_sign_done)
         (scripted offline) = [ImageGeneration]
    /\ (forall st2,
           outcome_of (handleGenerate (lastConfig stop_sign_done) stop_sign_done)
             (scripted offline) = inr st2 ->
           lastConfig st2 = Some cfg).
Proof.
  apply (@retry_reuses_config ratio as_written
           (ready (js "A stop sign at an intersection")) stop_sign_done
           (scripted stop_sign) (scripted offline)).
  - reflexivity.
  - vm_compute. reflexivity.
  - vm_compute. reflexivity.
Defined.

End Instances.

(* ================================================================== *)
(** ** More on the services *)

Section MoreStrings.

Lemma trimStart_idempotent (s : jsstring) : trimStart (trimStart s) = trimStart s.
Proof.
  pose proof (trimStart_head s) as H.
  destruct (trimStart s) as [|c r]; [reflexivity|].
  simpl. now rewrite H.
Qed.

(** Leading white space is never the last code unit before a visible one:
    stripping stops no later than there. *)
Lemma trimStart_keeps_last (l : jsstring) (c : N) :
  isWhiteSpace c = false -> exists l', trimStart (l ++ [c]) = l' ++ [c].
Proof.
  intros Hc. induction l as [|x l IH]; simpl.
  - rewrite Hc. now exists [].
  - destruct (isWhiteSpace x); [exact IH|]. now exists (x :: l).
Qed.

Lemma trimEnd_keeps_head (c : N) (r : jsstring) :
  isWhiteSpace c = false -> exists r', trimEnd (c :: r) = c :: r'.
Proof.
  intros Hc. unfold trimEnd. cbn [rev].
  destruct (@trimStart_keeps_last (rev r) c Hc) as [l' ->].
  rewrite rev_app_distr. now exists (rev l').
Qed.

Lemma trim_idempotent (s : jsstring) : trim (trim s) = trim s.
Proof.
  unfold trim at 2 3. pose proof (trimStart_head s) as H.
  destruct (trimStart s) as [|c r].
  - reflexivity.
  - destruct (@trimEnd_keeps_head c r H) as [r' E]. rewrite E.
    unfold trim. cbn [trimStart]. rewrite H, <- E.
    unfold trimEnd. now rewrite rev_involutive, trimStart_idempotent.
Qed.

(** A string includes what stands between a prefix and a suffix of it. *)
Lemma includes_infix (pre sub post : jsstring) :
  includes (pre ++ sub ++ post) sub = true.
Proof.
  induction pre as [|a pre IH]; simpl.
  - destruct sub; simpl; [now destruct post|].
    now rewrite N.eqb_refl, startsWith_app.
  - rewrite IH. apply orb_true_r.
Qed.

End MoreStrings.

Section MoreQuoting.

Import GeminiService.

Variables (userPrompt key : jsstring) (env : Oracle).

(** X1.  For a prompt with a visible character, what [addQuotesToPrompt]
    returns is the original prompt or the text of the response with its
    outer white space removed, and in both cases it has a visible
    character: the stages after it never get a blank prompt.  A response of
    white space only counts as empty. *)
Theorem addQuotesToPrompt_visible :
  truthy (trim userPrompt) = true ->
  exists quoted,
    outcome_of (addQuotesToPrompt userPrompt key) env = inr quoted
    /\ truthy (trim quoted) = true
    /\ (quoted = userPrompt
        \/ exists response,
             env 0 (quote_request userPrompt key) = inr response
             /\ quoted = trim (response_text response))
    /\ (forall response,
           env 0 (quote_request userPrompt key) = inr response ->
           Forall (fun c => isWhiteSpace c = true) (response_text response) ->
           quoted = userPrompt).
Proof.
  intros Hp. unfold outcome_of. rewrite addQuotesToPrompt_run, Hp. cbn [snd].
  destruct (env 0 (quote_request userPrompt key)) as [e|response].
  - exists userPrompt. repeat split; auto; discriminate.
  - unfold or_else.
    destruct (Response.text response) as [text|] eqn:Et;
      [|exists userPrompt; repeat split; auto].
    assert (E : response_text response = text)
      by (unfold response_text; now rewrite Et).
    destruct (truthy (trim text)) eqn:Ht.
    + exists (trim text). split; [reflexivity|].
      split; [now rewrite trim_idempotent|].
      split; [right; exists response; now rewrite E|].
      intros r [= <-] Hws. rewrite E in Hws. apply trim_nil_iff in Hws.
      rewrite Hws in Ht. discriminate.
    + exists userPrompt. repeat split; auto.
Qed.

End MoreQuoting.

Section MoreGeneration.

Import GeminiService.

Lemma forEach_from_push (A : Type) (payload : A -> Part) (array : list A) :
  forall (index : nat) (acc : list Part),
    forEach_from (fun parts x (_ : nat) => push parts (payload x))
      array index acc
    = acc ++ map payload array.
Proof.
  induction array as [|x rest IH]; intros index acc; simpl.
  - now rewrite app_nil_r.
  - rewrite IH. unfold push. now rewrite <- app_assoc.
Qed.

(** X2.  The request of [generateImage] carries the prompt as its first
    part, then the image data of every text plate in their order, then the
    image data of every reference image in their order, each once and
    without labels; it is the only call [generateImage] makes. *)
Theorem generateImage_attachments (prompt : jsstring)
  (textPlates referenceImages : list ImageFile) (key : jsstring)
  (env : Oracle) :
  generateImage_parts prompt textPlates referenceImages
  = text_part prompt
      :: map image_data textPlates ++ map image_data referenceImages
  /\ calls_of (generateImage prompt textPlates referenceImages key) env
     = [image_request In_generateImage key
          (text_part prompt
             :: map image_data textPlates ++ map image_data referenceImages)].
Proof.
  assert (E : generateImage_parts prompt textPlates referenceImages
              = text_part prompt
                  :: map image_data textPlates ++ map image_data referenceImages).
  { unfold generateImage_parts, forEach.
    rewrite (forEach_from_push image_data). now rewrite map_app. }
  split; [exact E|].
  unfold calls_of.
  destruct (generateImage_run prompt textPlates referenceImages key env 0)
    as [-> _].
  now rewrite E.
Qed.

Variables (version : ServiceVersion) (query key : jsstring).

Local Abbreviation request :=
  (image_request In_getGroundingImage key
     [text_part (grounding_prompt version query)]).

Lemma grounding_prompt_names_query :
  includes (grounding_prompt version query) query = true.
Proof.
  destruct version; unfold grounding_prompt; apply includes_infix.
Qed.

(** X3.  [getGroundingImage] asks the image model with one text part, a
    prompt that contains the query.  Given the response, when the parts of
    its first candidate can be read: if some part carries inline data, the
    first such part is fetched as a PNG data URL and read as a blob, and
    when both succeed the result is the image file named
    [grounding_reference.png], of type [image/png] whatever type the part
    declares, with the payload of that part; if no part carries inline data
    it throws [Failed to generate grounding image.], having made the one
    request only.  When they cannot be read (no candidates, none in the
    list, a first candidate without content, a content without parts), it
    throws the [TypeError] of that read instead, which is not the error
    above, having made the one request only. *)
Theorem getGroundingImage_result (env : Oracle)
  (response : GenerateContentResponse) :
  env 0 request = inr response ->
  includes (grounding_prompt version query) query = true
  /\ (forall before part after blob,
         response_parts response = inr (before ++ part :: after) ->
         Forall (fun p => inlineData p = None) before ->
         inlineData part = Some blob ->
         env 1 (fetch (data_url (data blob))) = inr tt ->
         env 2 (read_blob (data_url (data blob))) = inr tt ->
         outcome_of (getGroundingImage version query key) env
         = inr {| file := {| name := js "grounding_reference.png";
                             type := js "image/png" |};
                  base64 := data blob |}
         /\ calls_of (getGroundingImage version query key) env
            = [request; fetch (data_url (data blob));
               read_blob (data_url (data blob))])
  /\ (forall parts,
         response_parts response = inr parts ->
         Forall (fun p => inlineData p = None) parts ->
         outcome_of (getGroundingImage version query key) env
         = inl (JsError (js "Failed to generate grounding image."))
         /\ calls_of (getGroundingImage version query key) env = [request])
  /\ (forall e,
         response_parts response = inl e ->
         outcome_of (getGroundingImage version query key) env = inl e
         /\ calls_of (getGroundingImage version query key) env = [request]
         /\ e <> JsError (js "Failed to generate grounding image.")).
Proof.
  intros Hr. split; [apply grounding_prompt_names_query|].
  unfold outcome_of, calls_of, getGroundingImage.
  cbn [await bind]. rewrite run_Await, Hr. cbn [bind fst snd].
  split; [|split].
  - intros before part after blob Hparts Hb Hp Hf Hbl. rewrite Hparts.
    clear Hparts Hr.
    induction Hb as [|p before Hnone _ IH]; cbn [app grounding_scan].
    + rewrite Hp. cbn [await bind]. rewrite run_Await, Hf. cbn [bind].
      rewrite run_Await, Hbl. split; reflexivity.
    + rewrite Hnone. exact IH.
  - intros parts Hparts Hnone. rewrite Hparts. clear Hparts Hr.
    induction Hnone as [|p parts Hp _ IH]; cbn [grounding_scan].
    + split; reflexivity.
    + rewrite Hp. exact IH.
  - intros e He. rewrite He. split; [reflexivity|]. split; [reflexivity|].
    unfold response_parts in He.
    destruct (Response.candidates response) as [[|candidate rest]|];
      try (injection He as <-; discriminate).
    destruct (content candidate) as [c|];
      try (injection He as <-; discriminate).
    destruct (content_parts c); [discriminate|].
    injection He as <-. discriminate.
Qed.

End MoreGeneration.

(* ================================================================== *)
(** ** More on the orchestrator *)

Section MoreOrchestrator.

Import GeminiService App.

Variable AspectRatio_value : AspectRatio -> jsstring.
Variable Number_toString : jsstring -> jsstring.

Local Abbreviation handleGenerate :=
  (App.handleGenerate AspectRatio_value Number_toString).
Local Abbreviation first_config :=
  (App.first_config AspectRatio_value Number_toString).
Local Abbreviation reachable :=
  (App.reachable AspectRatio_value Number_toString).
Local Abbreviation config_prog :=
  (App.config_prog AspectRatio_value Number_toString).
Local Abbreviation promptToUse := (Engineered.promptToUse Number_toString).

Lemma engineerPrompt_settles (userPrompt : jsstring) (targetModel : TargetModel)
  (textPlates referenceImages : list ImageFile) (aspectRatio key : jsstring)
  (env : Oracle) (n : nat) :
  snd (run (engineerPrompt userPrompt targetModel textPlates referenceImages
              aspectRatio key) env n)
  = match env n (engineer_request userPrompt targetModel textPlates
                   referenceImages aspectRatio key) with
    | inl e => inl e
    | inr response =>
        match JSON.parse (response_text response) with
        | Some parsedJson => inr parsedJson
        | None =>
            inl (JsError (invalid_response_prefix ++ response_text response))
        end
    end.
Proof.
  unfold engineerPrompt. cbn [await bind]. rewrite run_Await. cbn [snd].
  destruct (env n _) as [e|response]; cbn; [reflexivity|].
  now destruct (JSON.parse (response_text response)).
Qed.

(** The template literal awaits nothing: its outcome is the same in every
    environment. *)
Lemma promptToUse_pure (v : EngineeredPrompt) (env env' : Oracle) (n n' : nat) :
  run (promptToUse v) env n = run (promptToUse v) env' n'.
Proof.
  unfold Engineered.promptToUse.
  repeat match goal with
         | |- context [match ?x with inl _ => _ | inr _ => _ end] => destruct x
         end; reflexivity.
Qed.

(** The configuration of a first generation, call by call. *)
Lemma first_config_run (currentPrompt key quoted : jsstring) (st : State)
  (env : Oracle) :
  truthy (trim currentPrompt) = true ->
  outcome_of (addQuotesToPrompt currentPrompt key) env = inr quoted ->
  run (first_config currentPrompt key st) env 0
  = match env 1 (extractTextAndGeneratePlates quoted) with
    | inl e =>
        ([quote_request currentPrompt key;
          extractTextAndGeneratePlates quoted], inl e)
    | inr plates =>
        ([quote_request currentPrompt key;
          extractTextAndGeneratePlates quoted;
          engineer_request quoted IMAGE plates (referenceImages st)
            (AspectRatio_value (aspectRatio st)) key],
         match env 2 (engineer_request quoted IMAGE plates (referenceImages st)
                        (AspectRatio_value (aspectRatio st)) key) with
         | inl e => inl e
         | inr response =>
             match JSON.parse (response_text response) with
             | None =>
                 inl (JsError (invalid_response_prefix
                               ++ response_text response))
             | Some v =>
                 match outcome_of (promptToUse v) env with
                 | inl e => inl e
                 | inr text =>
                     inr {| GenerationConfig.prompt := text;
                            GenerationConfig.textPlates := plates;
                            GenerationConfig.referenceImages :=
                              referenceImages st |}
                 end
             end
         end)
    end.
Proof.
  intros Hp Hq. unfold outcome_of in Hq.
  unfold App.first_config. rewrite run_bind.
  rewrite addQuotesToPrompt_run, Hp in Hq |- *.
  cbn [fst snd List.length Nat.add] in Hq |- *.
  set (q := match env 0 _ with inl _ => _ | inr _ => _ end) in *.
  assert (E : q = quoted) by congruence. clearbody q. subst q. clear Hq.
  cbn [await bind]. rewrite run_Await.
  destruct (env 1 (extractTextAndGeneratePlates quoted)) as [e|plates];
    cbn [bind run fst snd app]; [reflexivity|].
  rewrite run_bind, engineerPrompt_run, engineerPrompt_settles.
  cbn [List.length Nat.add app].
  destruct (env 2 _) as [e|response]; [reflexivity|].
  destruct (JSON.parse (response_text response)) as [v|]; [|reflexivity].
  rewrite run_bind, promptToUse_run. cbn [List.length Nat.add app].
  unfold outcome_of. rewrite (promptToUse_pure v env env 3 0).
  destruct (snd (run (promptToUse v) env 0)); reflexivity.
Qed.

Lemma addQuotesToPrompt_total (userPrompt key : jsstring) (env : Oracle) :
  exists quoted, outcome_of (addQuotesToPrompt userPrompt key) env = inr quoted.
Proof.
  unfold outcome_of. rewrite addQuotesToPrompt_run.
  destruct (truthy (trim userPrompt)); eexists; reflexivity.
Qed.

(** A first generation past its guards, call by call. *)
Lemma first_generation_run (st : State) (key : jsstring) (env : Oracle) :
  apiKey st = Some key ->
  truthy key = true ->
  truthy (trim (userPrompt st)) = true ->
  run (handleGenerate None st) env 0
  = match snd (run (first_config (userPrompt st) key (begin_loading st)) env 0)
    with
    | inl e =>
        (fst (run (first_config (userPrompt st) key (begin_loading st)) env 0),
         inr (settle st (inl e) (inl e)))
    | inr cfg =>
        (fst (run (first_config (userPrompt st) key (begin_loading st)) env 0)
           ++ [image_request In_generateImage key
                 (generateImage_parts (GenerationConfig.prompt cfg)
                    (GenerationConfig.textPlates cfg)
                    (GenerationConfig.referenceImages cfg))],
         inr (settle st (inr cfg)
                (snd (run (generateImage (GenerationConfig.prompt cfg)
                             (GenerationConfig.textPlates cfg)
                             (GenerationConfig.referenceImages cfg) key) env
                        (List.length
                           (fst (run (first_config (userPrompt st) key
                                        (begin_loading st)) env 0)))))))
    end.
Proof.
  intros Hk Hkey Hp.
  assert (Hg : passes_guards None st = true)
    by (unfold passes_guards; rewrite Hk; cbn [truthy_opt]; now rewrite Hkey, Hp).
  pose proof (@handleGenerate_started AspectRatio_value Number_toString
                None st key env Hk Hkey Hg) as H.
  cbv zeta in H. cbn [App.config_prog] in H.
  destruct (snd (run (first_config (userPrompt st) key (begin_loading st))
                   env 0)) as [e|cfg]; [exact H|].
  rewrite H. f_equal. f_equal.
  now destruct (generateImage_run (GenerationConfig.prompt cfg)
                  (GenerationConfig.textPlates cfg)
                  (GenerationConfig.referenceImages cfg) key env
                  (List.length (fst (run (first_config (userPrompt st) key
                                            (begin_loading st)) env 0)))).
Qed.

(** *** The guards *)

(** X4.  Without a usable key ([null] or the empty string),
    [handleGenerate] makes no call, for a first generation and for a retry
    alike: it opens the credential prompt with the notice that a key is
    required and leaves the state, the result, the error message and the
    kept configuration as they were. *)
Theorem handleGenerate_without_key (retryConfig : option GenerationConfig.t)
  (st : State) (env : Oracle) :
  truthy_opt (apiKey st) = false ->
  calls_of (handleGenerate retryConfig st) env = []
  /\ exists st',
       outcome_of (handleGenerate retryConfig st) env = inr st'
       /\ isApiKeyModalOpen st' = true
       /\ apiKeyError st'
          = Some (js "An API key is required to generate images.")
       /\ appState st' = appState st /\ resultUrl st' = resultUrl st
       /\ errorMessage st' = errorMessage st /\ lastConfig st' = lastConfig st.
Proof.
  intros Hk. unfold calls_of, outcome_of.
  rewrite (handleGenerate_no_key _ _ _ _ Hk). cbn [run fst snd].
  split; [reflexivity|]. eexists. split; [reflexivity|]. repeat split.
Qed.

(** X5.  With a key and a prompt that is empty or white space only, a
    first generation makes no call: the state goes to [ERROR] with the
    message [Please enter a prompt to generate.: An unknown error
    occurred.], and the key, the stored key and the credential prompt are
    untouched. *)
Theorem handleGenerate_blank_prompt (st : State) (env : Oracle) :
  truthy_opt (apiKey st) = true ->
  Forall (fun c => isWhiteSpace c = true) (userPrompt st) ->
  calls_of (handleGenerate None st) env = []
  /\ exists st',
       outcome_of (handleGenerate None st) env = inr st'
       /\ appState st' = ERROR
       /\ errorMessage st'
          = Some (js "Please enter a prompt to generate.: An unknown error occurred.")
       /\ apiKey st' = apiKey st /\ localStorage st' = localStorage st
       /\ isApiKeyModalOpen st' = isApiKeyModalOpen st.
Proof.
  intros Hk Hb. apply trim_nil_iff in Hb.
  assert (Hp : truthy (trim (userPrompt st)) = false) by now rewrite Hb.
  unfold calls_of, outcome_of.
  rewrite (handleGenerate_blank _ _ _ Hk Hp). cbn [run fst snd].
  split; [reflexivity|]. eexists. split; [reflexivity|].
  unfold handleError.
  change (is_api_key_error (errorDetails_of None)) with false.
  repeat split.
Qed.

(** *** Call by call *)

(** What a first generation does once the engineering model has answered
    with parseable text: with a prompt from the template literal it makes
    the image request, with that prompt, the plates of the renderer and
    the reference images of the form; when the template literal throws it
    makes no fourth call. *)
Lemma first_generation_engineered (st : State) (key quoted : jsstring)
  (plates : list ImageFile) (response : GenerateContentResponse)
  (v : EngineeredPrompt) (env : Oracle) :
  apiKey st = Some key ->
  truthy key = true ->
  truthy (trim (userPrompt st)) = true ->
  outcome_of (addQuotesToPrompt (userPrompt st) key) env = inr quoted ->
  env 1 (extractTextAndGeneratePlates quoted) = inr plates ->
  env 2 (engineer_request quoted IMAGE plates (referenceImages st)
           (AspectRatio_value (aspectRatio st)) key) = inr response ->
  JSON.parse (response_text response) = Some v ->
  match outcome_of (promptToUse v) env with
  | inl e =>
      run (handleGenerate None st) env 0
      = ([quote_request (userPrompt st) key;
          extractTextAndGeneratePlates quoted;
          engineer_request quoted IMAGE plates (referenceImages st)
            (AspectRatio_value (aspectRatio st)) key],
         inr (settle st (inl e) (inl e)))
  | inr text =>
      let cfg := {| GenerationConfig.prompt := text;
                    GenerationConfig.textPlates := plates;
                    GenerationConfig.referenceImages := referenceImages st |} in
      run (handleGenerate None st) env 0
      = ([quote_request (userPrompt st) key;
          extractTextAndGeneratePlates quoted;
          engineer_request quoted IMAGE plates (referenceImages st)
            (AspectRatio_value (aspectRatio st)) key;
          image_request In_generateImage key
            (generateImage_parts text plates (referenceImages st))],
         inr (settle st (inr cfg)
                (snd (run (generateImage text plates (referenceImages st) key)
                        env 3))))
  end.
Proof.
  intros Hk Hkey Hp Hq Hpl He Hv.
  rewrite (first_generation_run _ _ Hk Hkey Hp).
  rewrite (@first_config_run (userPrompt st) key quoted (begin_loading st) env
             Hp Hq).
  rewrite Hpl. cbn [fst snd referenceImages aspectRatio begin_loading
                    setErrorMessage setResultUrl setAppState].
  rewrite He, Hv.
  destruct (outcome_of (promptToUse v) env) as [e|text]; reflexivity.
Qed.

(** X6.  A failure of the quoting call does not stop a first generation:
    the plate renderer is called next, with the prompt as the user typed
    it, and when it answers, the engineering request is made with that
    prompt and the plates. *)
Theorem quoting_failure_does_not_block (st : State) (key : jsstring)
  (env : Oracle) (e : Thrown) :
  apiKey st = Some key ->
  truthy key = true ->
  truthy (trim (userPrompt st)) = true ->
  env 0 (quote_request (userPrompt st) key) = inl e ->
  nth_error (calls_of (handleGenerate None st) env) 1
  = Some (extractTextAndGeneratePlates (userPrompt st))
  /\ forall plates,
       env 1 (extractTextAndGeneratePlates (userPrompt st)) = inr plates ->
       nth_error (calls_of (handleGenerate None st) env) 2
       = Some (engineer_request (userPrompt st) IMAGE plates
                 (referenceImages st) (AspectRatio_value (aspectRatio st)) key).
Proof.
  intros Hk Hkey Hp He.
  assert (Hq : outcome_of (addQuotesToPrompt (userPrompt st) key) env
               = inr (userPrompt st)).
  { unfold outcome_of. now rewrite addQuotesToPrompt_run, Hp, He. }
  unfold calls_of. rewrite (first_generation_run _ _ Hk Hkey Hp).
  rewrite (@first_config_run (userPrompt st) key (userPrompt st)
             (begin_loading st) env Hp Hq).
  destruct (env 1 (extractTextAndGeneratePlates (userPrompt st)))
    as [e1|plates]; cbn [fst snd].
  - split; [reflexivity | discriminate].
  - match goal with
    | |- context [match ?x with inl _ => _ | inr _ => _ end] =>
        destruct x as [e2|cfg]
    end; cbn [fst app nth_error]; (split; [reflexivity|]);
      intros plates' [= <-]; reflexivity.
Qed.

(** X7.  In a first generation the configuration is kept before the image
    request is made: if the run reaches the image request, the final state
    keeps the configuration that request was built from, whether the image
    model then answers, fails or rejects the key; if the run stops before,
    the kept configuration is the one from before the run. *)
Theorem lastConfig_kept_before_image (st st' : State) (key : jsstring)
  (env : Oracle) :
  apiKey st = Some key ->
  truthy key = true ->
  truthy (trim (userPrompt st)) = true ->
  outcome_of (handleGenerate None st) env = inr st' ->
  (In ImageGeneration (stages_of (handleGenerate None st) env) ->
   exists cfg before,
     lastConfig st' = Some cfg
     /\ calls_of (handleGenerate None st) env
        = before ++ [image_request In_generateImage key
                       (generateImage_parts (GenerationConfig.prompt cfg)
                          (GenerationConfig.textPlates cfg)
                          (GenerationConfig.referenceImages cfg))])
  /\ (~ In ImageGeneration (stages_of (handleGenerate None st) env) ->
      lastConfig st' = lastConfig st).
Proof.
  intros Hk Hkey Hp Hout.
  unfold outcome_of, stages_of, calls_of in *.
  rewrite (first_generation_run _ _ Hk Hkey Hp) in Hout |- *.
  pose proof (@first_config_stages AspectRatio_value Number_toString
                (userPrompt st) key (begin_loading st) env Hp) as Hs.
  cbv zeta in Hs.
  destruct (snd (run (first_config (userPrompt st) key (begin_loading st))
                   env 0)) as [e|cfg]; cbn [fst snd] in Hout |- *.
  - assert (E : settle st (inl e) (inl e) = st') by congruence.
    rewrite <- E. cbn [settle]. rewrite handleError_lastConfig. split.
    + intros Hin. exfalso.
      destruct Hs as [[Hs _]|Hs]; rewrite Hs in Hin; simpl in Hin;
        repeat (destruct Hin as [Hin|Hin]; [discriminate|]); exact Hin.
    + reflexivity.
  - match type of Hout with
    | inr (settle _ _ ?i) = _ =>
        assert (E : settle st (inr cfg) i = st') by congruence
    end.
    rewrite <- E, settle_lastConfig. split.
    + intros _. eexists. eexists. split; reflexivity.
    + intros Hn. exfalso. apply Hn. rewrite map_app. apply in_or_app.
      right. now left.
Qed.

(** *** What a generation leaves *)

Lemma handleError_inputs (message : jsstring) (error : option Thrown)
  (st : State) :
  userPrompt (handleError message error ERROR st) = userPrompt st
  /\ referenceImages (handleError message error ERROR st) = referenceImages st
  /\ aspectRatio (handleError message error ERROR st) = aspectRatio st.
Proof. unfold handleError. destruct (is_api_key_error _); repeat split. Qed.

Lemma settle_inputs (st : State) (config : Thrown + GenerationConfig.t)
  (image : Thrown + jsstring) :
  userPrompt (settle st config image) = userPrompt st
  /\ referenceImages (settle st config image) = referenceImages st
  /\ aspectRatio (settle st config image) = aspectRatio st.
Proof.
  destruct config as [e|cfg]; cbn [settle].
  - exact (handleError_inputs (js "Generation failed") (Some e)
             (begin_loading st)).
  - destruct image as [e|url]; [|repeat split].
    exact (handleError_inputs (js "Generation failed") (Some e)
             (setLastConfig (Some cfg) (begin_loading st))).
Qed.

(** Every way [handleGenerate] can end, by its guards. *)
Lemma handleGenerate_cases (retryConfig : option GenerationConfig.t)
  (st st' : State) (env : Oracle) :
  outcome_of (handleGenerate retryConfig st) env = inr st' ->
  (truthy_opt (apiKey st) = false
   /\ st' = setApiKeyError
              (Some (js "An API key is required to generate images."))
              (setIsApiKeyModalOpen true st))
  \/ (truthy_opt (apiKey st) = true /\ retryConfig = None
      /\ truthy (trim (userPrompt st)) = false
      /\ st' = handleError (js "Please enter a prompt to generate.") None
                 ERROR st)
  \/ (truthy_opt (apiKey st) = true /\ passes_guards retryConfig st = true
      /\ exists config image,
           st' = settle st config image
           /\ (forall url, image = inr url -> exists d, url = data_url d)).
Proof.
  intros Hout. unfold outcome_of in Hout.
  destruct (truthy_opt (apiKey st)) eqn:Hk.
  - destruct (passes_guards retryConfig st) eqn:Hg.
    + right; right. split; [reflexivity|]. split; [reflexivity|].
      destruct (truthy_opt_key _ Hk) as (c & key & Hkey).
      pose proof (@handleGenerate_started AspectRatio_value Number_toString
                    retryConfig st (c :: key) env Hkey eq_refl Hg) as H.
      cbv zeta in H.
      destruct (snd (run (config_prog retryConfig (c :: key) st) env 0))
        as [e|cfg]; rewrite H in Hout;
        match type of Hout with
        | snd (_, inr (settle _ ?cf ?im)) = _ =>
            assert (E : settle st cf im = st')
              by (change (@inr Thrown State (settle st cf im) = inr st') in Hout;
                  congruence);
            exists cf, im
        end; (split; [now rewrite E|]).
      * discriminate.
      * intros url Hu.
        match type of Hu with
        | snd (run (generateImage ?p ?t ?r ?k) ?en ?n) = _ =>
            destruct (generateImage_run p t r k en n) as [_ Hsnd];
            rewrite Hsnd in Hu;
            destruct (en n _) as [e|response]; [discriminate|];
            destruct (response_parts response) as [e|parts]; [discriminate|];
            exact (proj2 (generateImage_scan_run parts en (S n)) url Hu)
        end.
    + right; left. unfold passes_guards in Hg. rewrite Hk in Hg.
      cbn [andb] in Hg.
      destruct retryConfig as [cfg|]; [discriminate|]. cbn [orb] in Hg.
      rewrite (handleGenerate_blank _ _ _ Hk Hg) in Hout.
      cbn [run snd] in Hout. repeat split; congruence.
  - left. rewrite (handleGenerate_no_key _ _ _ _ Hk) in Hout.
    cbn [run snd] in Hout. split; congruence.
Qed.

(** X8.  However it ends, [handleGenerate] leaves what the user entered in
    the form as it was: the prompt, the reference images and the aspect
    ratio. *)
Theorem handleGenerate_keeps_inputs (retryConfig : option GenerationConfig.t)
  (st st' : State) (env : Oracle) :
  outcome_of (handleGenerate retryConfig st) env = inr st' ->
  userPrompt st' = userPrompt st
  /\ referenceImages st' = referenceImages st
  /\ aspectRatio st' = aspectRatio st.
Proof.
  intros Hout.
  destruct (handleGenerate_cases _ _ _ Hout)
    as [[_ ->] | [(_ & _ & _ & ->) | (_ & _ & config & image & -> & _)]].
  - repeat split.
  - apply handleError_inputs.
  - apply settle_inputs.
Qed.

(** X9.  A generation that got past the guards never stays in [LOADING].
    It ends in [SUCCESS] with a PNG data URL as the result and no error
    message; or in [ERROR] with no result and the message [Generation
    failed: ] followed by the details of the error, the key kept; or, when
    the details name an invalid key, in [IDLE] with the key cleared in
    memory and in storage, the credential prompt open, and neither result
    nor error message. *)
Theorem started_generation_settles (retryConfig : option GenerationConfig.t)
  (st st' : State) (env : Oracle) :
  passes_guards retryConfig st = true ->
  outcome_of (handleGenerate retryConfig st) env = inr st' ->
  (appState st' = SUCCESS /\ errorMessage st' = None
   /\ exists d, resultUrl st' = Some (js "data:image/png;base64," ++ d))
  \/ (appState st' = ERROR /\ resultUrl st' = None
      /\ apiKey st' = apiKey st /\ localStorage st' = localStorage st
      /\ exists details,
           errorMessage st' = Some (js "Generation failed: " ++ details)
           /\ is_api_key_error details = false)
  \/ (appState st' = IDLE /\ apiKey st' = None /\ localStorage st' = None
      /\ isApiKeyModalOpen st' = true
      /\ resultUrl st' = None /\ errorMessage st' = None).
Proof.
  intros Hg Hout.
  assert (Hk : truthy_opt (apiKey st) = true)
    by (unfold passes_guards in Hg; now apply andb_true_iff in Hg).
  assert (Herr : forall e s,
    resultUrl s = None -> errorMessage s = None ->
    apiKey s = apiKey st -> localStorage s = localStorage st ->
    let s' := handleError (js "Generation failed") (Some e) ERROR s in
    (appState s' = ERROR /\ resultUrl s' = None
     /\ apiKey s' = apiKey st /\ localStorage s' = localStorage st
     /\ exists details,
          errorMessage s' = Some (js "Generation failed: " ++ details)
          /\ is_api_key_error details = false)
    \/ (appState s' = IDLE /\ apiKey s' = None /\ localStorage s' = None
        /\ isApiKeyModalOpen s' = true
        /\ resultUrl s' = None /\ errorMessage s' = None)).
  { intros e s Hr Hm Ha Hl. cbv zeta. unfold handleError.
    destruct (is_api_key_error (errorDetails_of (Some e))) eqn:Hd.
    - right. repeat split; assumption.
    - left. repeat split; try assumption.
      exists (errorDetails_of (Some e)). split; [reflexivity | exact Hd]. }
  destruct (handleGenerate_cases _ _ _ Hout)
    as [[Hk' _] | [(_ & -> & Hp & _) | (_ & _ & config & image & -> & Hurl)]].
  - congruence.
  - unfold passes_guards in Hg. rewrite Hk, Hp in Hg. discriminate.
  - destruct config as [e|cfg]; cbn [settle].
    + right. now apply Herr.
    + destruct image as [e|url].
      * right. now apply Herr.
      * left. destruct (Hurl url eq_refl) as [d ->].
        repeat split. now exists d.
Qed.

Lemma first_generation_requests (st : State) (key : jsstring) (env : Oracle) :
  apiKey st = Some key ->
  truthy key = true ->
  truthy (trim (userPrompt st)) = true ->
  exists quoted plates parts,
    incl (calls_of (handleGenerate None st) env)
      [quote_request (userPrompt st) key;
       extractTextAndGeneratePlates quoted;
       engineer_request quoted IMAGE plates (referenceImages st)
         (AspectRatio_value (aspectRatio st)) key;
       image_request In_generateImage key parts].
Proof.
  intros Hk Hkey Hp.
  destruct (addQuotesToPrompt_total (userPrompt st) key env) as [quoted Hq].
  unfold calls_of. rewrite (first_generation_run _ _ Hk Hkey Hp).
  rewrite (@first_config_run (userPrompt st) key quoted (begin_loading st) env
             Hp Hq).
  exists quoted.
  destruct (env 1 (extractTextAndGeneratePlates quoted)) as [e|plates];
    cbn [fst snd].
  - exists [], []. intros c [<-|[<-|[]]]; simpl; auto.
  - exists plates.
    match goal with
    | |- context [match ?x with inl _ => _ | inr _ => _ end] =>
        destruct x as [e2|cfg]
    end; cbn [fst app].
    + exists []. intros c [<-|[<-|[<-|[]]]]; simpl; auto.
    + eexists. intros c [<-|[<-|[<-|[<-|[]]]]]; simpl; auto.
Qed.

(** X10.  Every request [handleGenerate] makes to the generative service
    is made with the key the component holds, and none carries the video
    instruction: the orchestrator engineers for the image target only. *)
Theorem requests_carry_the_key (retryConfig : option GenerationConfig.t)
  (st : State) (env : Oracle) (c : Call) :
  In c (calls_of (handleGenerate retryConfig st) env) ->
  (key_of c = None \/ key_of c = apiKey st)
  /\ instruction_of c <> Some SYSTEM_INSTRUCTION_VIDEO.
Proof.
  intros Hin.
  destruct (truthy_opt (apiKey st)) eqn:Hk.
  2:{ unfold calls_of in Hin. rewrite (handleGenerate_no_key _ _ _ _ Hk) in Hin.
      destruct Hin. }
  destruct (truthy_opt_key _ Hk) as (c0 & key & Hkey).
  destruct retryConfig as [cfg|].
  - assert (Hg : passes_guards (Some cfg) st = true)
      by (unfold passes_guards; now rewrite Hk).
    pose proof (@handleGenerate_started AspectRatio_value Number_toString
                  (Some cfg) st (c0 :: key) env Hkey eq_refl Hg) as H.
    cbv zeta in H.
    change (config_prog (Some cfg) (c0 :: key) st) with (Ret cfg) in H.
    change (run (Ret cfg) env 0) with (@nil Call, @inr Thrown _ cfg) in H.
    cbn [snd fst List.length app] in H.
    unfold calls_of in Hin. rewrite H in Hin. cbn [fst] in Hin.
    destruct (generateImage_run (GenerationConfig.prompt cfg)
                (GenerationConfig.textPlates cfg)
                (GenerationConfig.referenceImages cfg) (c0 :: key) env 0)
      as [Hc _].
    rewrite Hc in Hin. destruct Hin as [<-|[]]. rewrite Hkey.
    split; [now right | discriminate].
  - destruct (truthy (trim (userPrompt st))) eqn:Hp.
    2:{ unfold calls_of in Hin. rewrite (handleGenerate_blank _ _ _ Hk Hp) in Hin.
        destruct Hin. }
    destruct (first_generation_requests _ env Hkey eq_refl Hp)
      as (quoted & plates & parts & Hincl).
    apply Hincl in Hin. rewrite Hkey.
    destruct Hin as [<-|[<-|[<-|[<-|[]]]]]; cbn;
      (split; [auto | discriminate]).
Qed.

(** *** What the engineered prompt becomes *)

Section Answered.

Variables (st : State) (key quoted : jsstring) (plates : list ImageFile).
Variables (response : GenerateContentResponse) (env : Oracle).

Hypothesis Hkey : apiKey st = Some key.
Hypothesis Husable : truthy key = true.
Hypothesis Hprompt : truthy (trim (userPrompt st)) = true.
Hypothesis Hquoted :
  outcome_of (addQuotesToPrompt (userPrompt st) key) env = inr quoted.
Hypothesis Hplates : env 1 (extractTextAndGeneratePlates quoted) = inr plates.
Hypothesis Hanswer :
  env 2 (engineer_request quoted IMAGE plates (referenceImages st)
           (AspectRatio_value (aspectRatio st)) key) = inr response.

(** X11.  When the engineering model answers with an object whose three
    prompt fields are strings, the fourth call of a first generation is
    the image request whose prompt is the professional prompt, an empty
    line, the replication instruction, an empty line, and [Negative
    Prompt: ] with the negative prompt, and whose attachments are the
    plates the renderer gave and then the reference images of the form. *)
Theorem engineered_prompt_is_sent (members : list (jsstring * JSValue))
  (professional replication negative : jsstring) :
  JSON.parse (response_text response) = Some (JObject members) ->
  Engineered.lookup (js "professional_prompt") members = JString professional ->
  Engineered.lookup (js "text_replication_instruction") members
  = JString replication ->
  Engineered.lookup (js "negative_prompt") members = JString negative ->
  nth_error (calls_of (handleGenerate None st) env) 3
  = Some (image_request In_generateImage key
            (text_part (professional ++ LF ++ LF ++ replication ++ LF ++ LF
                        ++ js "Negative Prompt: " ++ negative)
               :: map image_data plates
               ++ map image_data (referenceImages st))).
Proof.
  intros Hv H1 H2 H3.
  pose proof (@first_generation_engineered _ _ _ _ _ _ _ Hkey Husable Hprompt
                Hquoted Hplates Hanswer Hv) as H.
  unfold outcome_of at 1 in H. unfold Engineered.promptToUse in H.
  unfold Engineered.substitute, Engineered.Get in H.
  rewrite H1, H2, H3 in H. cbn [Engineered.ToString run snd] in H. cbv zeta in H.
  unfold calls_of. rewrite H. cbn [fst nth_error].
  now rewrite (proj1 (generateImage_attachments _ plates (referenceImages st)
                        key env)).
Qed.

(** X12.  When the engineering model answers with parseable text whose
    value has none of the three prompt fields (a number, a string, a
    boolean, an array, an object without them), the generation goes on
    all the same: the image request is made, with the prompt [undefined],
    [undefined] and [Negative Prompt: undefined]. *)
Theorem fieldless_answer_is_sent_as_undefined (v : EngineeredPrompt) :
  JSON.parse (response_text response) = Some v ->
  Engineered.Get v (js "professional_prompt") = inr JUndefined ->
  Engineered.Get v (js "text_replication_instruction") = inr JUndefined ->
  Engineered.Get v (js "negative_prompt") = inr JUndefined ->
  nth_error (calls_of (handleGenerate None st) env) 3
  = Some (image_request In_generateImage key
            (generateImage_parts undefined_prompt plates (referenceImages st))).
Proof.
  intros Hv H1 H2 H3.
  pose proof (@first_generation_engineered _ _ _ _ _ _ _ Hkey Husable Hprompt
                Hquoted Hplates Hanswer Hv) as H.
  unfold outcome_of at 1 in H. unfold Engineered.promptToUse in H.
  unfold Engineered.substitute in H.
  rewrite H1, H2, H3 in H. cbn [Engineered.ToString run snd] in H. cbv zeta in H.
  unfold calls_of. now rewrite H.
Qed.

(** X13.  When the engineering model answers with the JSON text [null],
    which [engineerPrompt] returns as it does any parsed value, the first
    generation stops at the template literal: three calls, no image
    request, the state [ERROR] with no result, and the kept configuration
    is the one from before. *)
Theorem null_answer_stops_the_generation :
  JSON.parse (response_text response) = Some JNull ->
  stages_of (handleGenerate None st) env
  = [Quoting; PlateRendering; Engineering]
  /\ exists st',
       outcome_of (handleGenerate None st) env = inr st'
       /\ appState st' = ERROR /\ resultUrl st' = None
       /\ lastConfig st' = lastConfig st.
Proof.
  intros Hv.
  pose proof (@first_generation_engineered _ _ _ _ _ _ _ Hkey Husable Hprompt
                Hquoted Hplates Hanswer Hv) as H.
  unfold outcome_of at 1 in H. cbn in H.
  unfold stages_of, calls_of, outcome_of. rewrite H. cbn [fst snd].
  split; [reflexivity|]. eexists. split; [reflexivity|].
  cbn [settle]. unfold handleError.
  change (is_api_key_error
            (errorDetails_of
               (Some (JsError (Engineered.null_read_message
                                 (js "professional_prompt"))))))
    with false.
  repeat split.
Qed.

End Answered.

(** *** The credential *)

(** X14.  A key saved in the credential prompt is stored, held in memory,
    and closes the prompt; loading the page again over that storage
    restores the key with the prompt closed, unless the key saved is the
    empty string, which opens the prompt again.  A key the handler finds
    rejected is removed from storage, so that loading the page again opens
    the prompt with no key in memory. *)
Theorem credential_survives_reload (newApiKey : jsstring) (st : State) :
  (let st' := handleSaveApiKey newApiKey st in
   localStorage st' = Some newApiKey /\ apiKey st' = Some newApiKey
   /\ isApiKeyModalOpen st' = false /\ apiKeyError st' = None
   /\ (truthy newApiKey = true ->
       apiKey (mount (initial (localStorage st'))) = Some newApiKey
       /\ isApiKeyModalOpen (mount (initial (localStorage st'))) = false)
   /\ (truthy newApiKey = false ->
       apiKey (mount (initial (localStorage st'))) = None
       /\ isApiKeyModalOpen (mount (initial (localStorage st'))) = true))
  /\ (forall message error,
         is_api_key_error (errorDetails_of (Some error)) = true ->
         let st' := handleError message (Some error) ERROR st in
         apiKey (mount (initial (localStorage st'))) = None
         /\ isApiKeyModalOpen (mount (initial (localStorage st'))) = true).
Proof.
  split.
  - cbv zeta. unfold handleSaveApiKey, mount.
    cbn [localStorage setApiKeyError setIsApiKeyModalOpen setStorage setApiKey
         initial apiKey isApiKeyModalOpen apiKeyError truthy_opt].
    split; [reflexivity|]. split; [reflexivity|]. split; [reflexivity|].
    split; [reflexivity|].
    split; intros Ht; rewrite Ht; split; reflexivity.
  - intros message error H. cbv zeta. unfold handleError. rewrite H.
    split; reflexivity.
Qed.

Lemma handleError_credentials (message : jsstring) (error : option Thrown)
  (st : State) :
  credentials_agree st -> credentials_agree (handleError message error ERROR st).
Proof.
  unfold credentials_agree, handleError.
  destruct (is_api_key_error _); cbn; [discriminate | auto].
Qed.

Lemma reachable_credentials (st : State) : reachable st -> credentials_agree st.
Proof.
  induction 1 as [stored | stored | st st' _ IH Hstep].
  - unfold credentials_agree. cbn. discriminate.
  - unfold credentials_agree, mount. cbn [localStorage initial].
    destruct (truthy_opt stored) eqn:Hs; cbn; [auto | discriminate].
  - destruct Hstep as [st k Hm | st v Hf | st r Hf | st l Hf
                      | st Hen Hg | st env st' Hen Hout
                      | st Hs Hg | st env st' Hs Hout | st Hv];
      try exact IH.
    + unfold credentials_agree. cbn. auto.
    + destruct (handleGenerate_cases _ _ _ Hout)
        as [[Hk ->] | [(_ & _ & _ & ->) | (_ & _ & config & image & -> & _)]].
      * unfold credentials_agree. cbn. congruence.
      * now apply handleError_credentials.
      * destruct config as [e|cfg]; cbn [settle];
          [|destruct image as [e|url]];
          try (apply handleError_credentials); exact IH.
    + destruct (handleGenerate_cases _ _ _ Hout)
        as [[Hk ->] | [(_ & _ & _ & ->) | (_ & _ & config & image & -> & _)]].
      * unfold credentials_agree. cbn. congruence.
      * now apply handleError_credentials.
      * destruct config as [e|cfg]; cbn [settle];
          [|destruct image as [e|url]];
          try (apply handleError_credentials); exact IH.
Qed.

(** X15.  In every reachable state with a usable key in memory, that key
    is the stored one, and no notice about the key is pending. *)
Theorem key_in_memory_is_the_stored_key (st : State) :
  reachable st ->
  truthy_opt (apiKey st) = true ->
  apiKey st = localStorage st /\ apiKeyError st = None.
Proof. intros Hr. exact (reachable_credentials Hr). Qed.

(** X16.  In every reachable state the success view is rendered exactly
    in [SUCCESS] and the error view exactly in [ERROR]: the result and the
    message they need are there.  While [LOADING] there is a usable key
    and the credential prompt is closed; and the credential prompt is open
    only in [IDLE], over the form. *)
Theorem views_follow_the_state (st : State) :
  reachable st ->
  shows_success st = AppState_eqb (appState st) SUCCESS
  /\ shows_error st = AppState_eqb (appState st) ERROR
  /\ (appState st = LOADING ->
      truthy_opt (apiKey st) = true /\ isApiKeyModalOpen st = false)
  /\ (isApiKeyModalOpen st = true ->
      appState st = IDLE /\ shows_form st = true).
Proof.
  intros Hr.
  destruct (@reachable_invariant AspectRatio_value Number_toString st Hr)
    as (H1 & H2 & H3 & H4).
  unfold shows_success, shows_error, shows_form, isLoading.
  split; [|split; [|split]].
  - destruct (appState st) eqn:Hs; cbn; try reflexivity. now rewrite H3.
  - destruct (appState st) eqn:Hs; cbn; try reflexivity. now rewrite H4.
  - intros Hl.
    destruct (truthy_opt (apiKey st)) eqn:Hk.
    + split; [reflexivity|].
      destruct (isApiKeyModalOpen st); [|reflexivity].
      specialize (H1 eq_refl). discriminate.
    + specialize (H2 eq_refl). congruence.
  - intros Hm. rewrite (H2 (H1 Hm)). split; reflexivity.
Qed.

(** X17.  In every reachable state that offers it, from the error view or
    from the success view, Start Over leaves the component exactly as
    loading the page again over the same storage would. *)
Theorem start_over_is_a_reload (st : State) :
  reachable st ->
  shows_error st = true \/ shows_success st = true ->
  handleStartOver st = mount (initial (localStorage st)).
Proof.
  intros Hr Hv.
  destruct (@reachable_invariant AspectRatio_value Number_toString st Hr)
    as (H1 & H2 & _).
  assert (Hk : truthy_opt (apiKey st) = true).
  { destruct (truthy_opt (apiKey st)) eqn:Hk; [reflexivity|].
    specialize (H2 eq_refl). unfold shows_error, shows_success in Hv.
    rewrite H2 in Hv. destruct Hv; discriminate. }
  assert (Hm : isApiKeyModalOpen st = false).
  { destruct (isApiKeyModalOpen st); [|reflexivity].
    specialize (H1 eq_refl). congruence. }
  destruct (reachable_credentials Hr Hk) as [Hs He].
  unfold handleStartOver, mount. cbn [localStorage initial].
  rewrite <- Hs, Hk.
  destruct st; cbn in *. now subst.
Qed.

End MoreOrchestrator.

(* ================================================================== *)
(** ** More theorems at work *)

Section MoreInstances.

Import GeminiService App Scenario Cases.

Local Abbreviation handleGenerate := (App.handleGenerate ratio as_written).
Local Abbreviation reachable := (App.reachable ratio as_written).
Local Abbreviation stop_sign_prompt := (js "A stop sign at an intersection").

(** The stop-sign answer of the quoting model is returned trimmed. *)
Lemma addQuotesToPrompt_visible_witness :
  exists quoted,
    outcome_of (addQuotesToPrompt stop_sign_prompt (js "key"))
      (scripted stop_sign) = inr quoted
    /\ truthy (trim quoted) = true
    /\ (quoted = stop_sign_prompt
        \/ exists response,
             scripted stop_sign 0 (quote_request stop_sign_prompt (js "key"))
             = inr response
             /\ quoted = trim (response_text response))
    /\ (forall response,
           scripted stop_sign 0 (quote_request stop_sign_prompt (js "key"))
           = inr response ->
           Forall (fun c => isWhiteSpace c = true) (response_text response) ->
           quoted = stop_sign_prompt).
Proof.
  apply (@addQuotesToPrompt_visible stop_sign_prompt (js "key")
           (scripted stop_sign)).
  vm_compute. reflexivity.
Defined.

(** A JPEG payload comes back as [grounding_reference.png]; a response
    without candidates ends in another error than the one of the function. *)
Lemma getGroundingImage_result_witness :
  outcome_of (getGroundingImage Mild (js "Azadi Tower Tehran") (js "key"))
    grounded
  = inr {| file := {| name := js "grounding_reference.png";
                      type := js "image/png" |};
           base64 := js "dG93ZXI=" |}
  /\ outcome_of (getGroundingImage Mild (js "Azadi Tower Tehran") (js "key"))
       (scripted image_blocked)
     <> inl (JsError (js "Failed to generate grounding image.")).
Proof.
  split.
  - refine (proj1 (proj1 (proj2 (@getGroundingImage_result Mild
              (js "Azadi Tower Tehran") (js "key") grounded jpeg_response
              eq_refl))
              [text_part (js "Reference:")]
              (inlineData_part (js "image/jpeg") (js "dG93ZXI="))
              []
              {| mimeType := js "image/jpeg"; data := js "dG93ZXI=" |}
              eq_refl _ eq_refl eq_refl eq_refl)).
    repeat constructor.
  - rewrite (proj1 (proj2 (proj2 (proj2 (@getGroundingImage_result Mild
               (js "Azadi Tower Tehran") (js "key") (scripted image_blocked)
               blocked eq_refl))) _ eq_refl)).
    discriminate.
Defined.

(** On the first render there is no key: nothing is requested. *)
Lemma handleGenerate_without_key_witness :
  calls_of (handleGenerate None (initial None)) (scripted stop_sign) = []
  /\ exists st',
       outcome_of (handleGenerate None (initial None)) (scripted stop_sign)
       = inr st'
       /\ isApiKeyModalOpen st' = true
       /\ apiKeyError st'
          = Some (js "An API key is required to generate images.")
       /\ appState st' = appState (initial None)
       /\ resultUrl st' = resultUrl (initial None)
       /\ errorMessage st' = errorMessage (initial None)
       /\ lastConfig st' = lastConfig (initial None).
Proof.
  apply (@handleGenerate_without_key ratio as_written None (initial None)
           (scripted stop_sign)).
  reflexivity.
Defined.

(** Two spaces are no prompt. *)
Lemma handleGenerate_blank_prompt_witness :
  calls_of (handleGenerate None (ready [32; 32]%N)) (scripted stop_sign) = []
  /\ exists st',
       outcome_of (handleGenerate None (ready [32; 32]%N)) (scripted stop_sign)
       = inr st'
       /\ appState st' = ERROR
       /\ errorMessage st'
          = Some (js "Please enter a prompt to generate.: An unknown error occurred.")
       /\ apiKey st' = apiKey (ready [32; 32]%N)
       /\ localStorage st' = localStorage (ready [32; 32]%N)
       /\ isApiKeyModalOpen st' = isApiKeyModalOpen (ready [32; 32]%N).
Proof.
  apply (@handleGenerate_blank_prompt ratio as_written (ready [32; 32]%N)
           (scripted stop_sign)).
  - reflexivity.
  - repeat constructor.
Defined.

(** With the quoting model down, the renderer gets the prompt as typed. *)
Lemma quoting_failure_does_not_block_witness :
  nth_error (calls_of (handleGenerate None (ready stop_sign_prompt))
               (scripted quoting_down)) 1
  = Some (extractTextAndGeneratePlates stop_sign_prompt).
Proof.
  refine (proj1 (@quoting_failure_does_not_block ratio as_written
            (ready stop_sign_prompt) (js "key") (scripted quoting_down)
            (JsError (js "Failed to fetch")) eq_refl eq_refl _ eq_refl)).
  vm_compute. reflexivity.
Defined.

(** The image model draws nothing: the configuration is kept all the same. *)
Lemma lastConfig_kept_before_image_witness :
  exists cfg before,
    lastConfig (after no_picture) = Some cfg
    /\ calls_of (handleGenerate None (ready stop_sign_prompt))
         (scripted no_picture)
       = before ++ [image_request In_generateImage (js "key")
                      (generateImage_parts (GenerationConfig.prompt cfg)
                         (GenerationConfig.textPlates cfg)
                         (GenerationConfig.referenceImages cfg))].
Proof.
  refine (proj1 (@lastConfig_kept_before_image ratio as_written
            (ready stop_sign_prompt) (after no_picture) (js "key")
            (scripted no_picture) eq_refl eq_refl _ _) _).
  - vm_compute. reflexivity.
  - vm_compute. reflexivity.
  - vm_compute. right; right; right; left. reflexivity.
Defined.

(** After the failure the prompt is still in the form. *)
Lemma handleGenerate_keeps_inputs_witness :
  userPrompt (after no_picture) = stop_sign_prompt
  /\ referenceImages (after no_picture) = []
  /\ aspectRatio (after no_picture) = SQUARE.
Proof.
  refine (@handleGenerate_keeps_inputs ratio as_written None
            (ready stop_sign_prompt) (after no_picture) (scripted no_picture) _).
  vm_compute. reflexivity.
Defined.

(** A key revoked at the last stage: one of the three endings, here the
    third. *)
Lemma started_generation_settles_witness :
  (appState (after key_revoked) = SUCCESS
   /\ errorMessage (after key_revoked) = None
   /\ exists d, resultUrl (after key_revoked)
                = Some (js "data:image/png;base64," ++ d))
  \/ (appState (after key_revoked) = ERROR
      /\ resultUrl (after key_revoked) = None
      /\ apiKey (after key_revoked) = apiKey (ready stop_sign_prompt)
      /\ localStorage (after key_revoked) = localStorage (ready stop_sign_prompt)
      /\ exists details,
           errorMessage (after key_revoked)
           = Some (js "Generation failed: " ++ details)
           /\ is_api_key_error details = false)
  \/ (appState (after key_revoked) = IDLE
      /\ apiKey (after key_revoked) = None
      /\ localStorage (after key_revoked) = None
      /\ isApiKeyModalOpen (after key_revoked) = true
      /\ resultUrl (after key_revoked) = None
      /\ errorMessage (after key_revoked) = None).
Proof.
  apply (@started_generation_settles ratio as_written None
           (ready stop_sign_prompt) (after key_revoked) (scripted key_revoked)).
  - vm_compute. reflexivity.
  - vm_compute. reflexivity.
Defined.

(** The quoting request of the stop-sign run. *)
Lemma requests_carry_the_key_witness :
  (key_of (quote_request stop_sign_prompt (js "key")) = None
   \/ key_of (quote_request stop_sign_prompt (js "key"))
      = apiKey (ready stop_sign_prompt))
  /\ instruction_of (quote_request stop_sign_prompt (js "key"))
     <> Some SYSTEM_INSTRUCTION_VIDEO.
Proof.
  apply (@requests_carry_the_key ratio as_written None (ready stop_sign_prompt)
           (scripted stop_sign)).
  vm_compute. left. reflexivity.
Defined.

(** The image request of the stop-sign run. *)
Lemma engineered_prompt_is_sent_witness :
  nth_error (calls_of (handleGenerate None (ready stop_sign_prompt))
               (scripted stop_sign)) 3
  = Some (image_request In_generateImage (js "key")
            (text_part (js "A red octagonal sign." ++ LF ++ LF
                        ++ js "Replicate text_plate_1.png." ++ LF ++ LF
                        ++ js "Negative Prompt: " ++ js "blurry")
               :: map image_data [plate 1]
               ++ map image_data (referenceImages (ready stop_sign_prompt)))).
Proof.
  eapply (@engineered_prompt_is_sent ratio as_written (ready stop_sign_prompt)
            (js "key")
            (jsq "A stop sign at an intersection that says `STOP`")
            [plate 1]).
  - reflexivity.
  - reflexivity.
  - vm_compute. reflexivity.
  - vm_compute. reflexivity.
  - reflexivity.
  - reflexivity.
  - vm_compute. reflexivity.
  - vm_compute. reflexivity.
  - vm_compute. reflexivity.
  - vm_compute. reflexivity.
Defined.

(** The answer [42]. *)
Lemma fieldless_answer_is_sent_as_undefined_witness :
  nth_error (calls_of (handleGenerate None (ready (js "x")))
               (scripted number_answer)) 3
  = Some (image_request In_generateImage (js "key")
            (generateImage_parts undefined_prompt []
               (referenceImages (ready (js "x"))))).
Proof.
  eapply (@fieldless_answer_is_sent_as_undefined ratio as_written
            (ready (js "x")) (js "key") (js "x") []).
  - reflexivity.
  - reflexivity.
  - vm_compute. reflexivity.
  - vm_compute. reflexivity.
  - reflexivity.
  - reflexivity.
  - vm_compute. reflexivity.
  - reflexivity.
  - reflexivity.
  - reflexivity.
Defined.

(** The answer [null]. *)
Lemma null_answer_stops_the_generation_witness :
  stages_of (handleGenerate None (ready (js "x"))) (scripted null_answer)
  = [Quoting; PlateRendering; Engineering]
  /\ exists st',
       outcome_of (handleGenerate None (ready (js "x"))) (scripted null_answer)
       = inr st'
       /\ appState st' = ERROR /\ resultUrl st' = None
       /\ lastConfig st' = lastConfig (ready (js "x")).
Proof.
  eapply (@null_answer_stops_the_generation ratio as_written
            (ready (js "x")) (js "key") (js "x") []).
  - reflexivity.
  - reflexivity.
  - vm_compute. reflexivity.
  - vm_compute. reflexivity.
  - reflexivity.
  - reflexivity.
  - vm_compute. reflexivity.
Defined.

(** A key saved and loaded again; a key rejected and the page loaded
    again. *)
Lemma credential_survives_reload_witness :
  apiKey (mount (initial (localStorage (handleSaveApiKey (js "key")
                                          (initial None)))))
  = Some (js "key")
  /\ isApiKeyModalOpen
       (mount (initial (localStorage
                          (handleError (js "Generation failed")
                             (Some key_rejected) ERROR mounted))))
     = true.
Proof.
  split.
  - exact (proj1 (proj1 (proj2 (proj2 (proj2 (proj2 (proj1
             (@credential_survives_reload (js "key") (initial None)))))))
             eq_refl)).
  - exact (proj2 (proj2 (@credential_survives_reload (js "key") mounted)
             (js "Generation failed") key_rejected eq_refl)).
Defined.

(** After the stop-sign generation. *)
Lemma key_in_memory_is_the_stored_key_witness :
  apiKey stop_sign_done = localStorage stop_sign_done
  /\ apiKeyError stop_sign_done = None.
Proof.
  apply (@key_in_memory_is_the_stored_key ratio as_written stop_sign_done
           reachable_stop_sign_done).
  reflexivity.
Defined.

Lemma views_follow_the_state_witness :
  shows_success stop_sign_done = AppState_eqb (appState stop_sign_done) SUCCESS
  /\ shows_error stop_sign_done = AppState_eqb (appState stop_sign_done) ERROR
  /\ (appState stop_sign_done = LOADING ->
      truthy_opt (apiKey stop_sign_done) = true
      /\ isApiKeyModalOpen stop_sign_done = false)
  /\ (isApiKeyModalOpen stop_sign_done = true ->
      appState stop_sign_done = IDLE /\ shows_form stop_sign_done = true).
Proof.
  exact (@views_follow_the_state ratio as_written stop_sign_done
           reachable_stop_sign_done).
Defined.

(** New Creation after the stop sign is a reload. *)
Lemma start_over_is_a_reload_witness :
  handleStartOver stop_sign_done
  = mount (initial (localStorage stop_sign_done)).
Proof.
  apply (@start_over_is_a_reload ratio as_written stop_sign_done
           reachable_stop_sign_done).
  right. vm_compute. reflexivity.
Defined.

End MoreInstances.
